(** * Video-Scribe-Url: the segmentation-and-transcription pipeline of start.py

    A shallow embedding of [src/start.py] and the properties its
    specification states about it.

    Python strings are sequences of Unicode code points, so a [str] is a
    list of code points ([N]).  The external collaborators (the operating
    system's process spawner, the wave-file reader, the remote recogniser
    and the language identifier) are parameters of the development; the
    script itself is written in a state-and-exception monad over the
    file system, the state of the outside world, the user-interface
    trace, the global log buffer and the mutable locals of
    [process_url_to_text]. *)

From Stdlib Require Import NArith ZArith Ascii String DecimalString Floats.
From stdpp Require Import gmap list strings sorting.

Local Open Scope N_scope.

(** ** Python strings *)

Module PyStr.

Abbreviation codepoint := N (only parsing).
Abbreviation pystr := (list N) (only parsing).

(** A literal of the script, as the list of its code points. *)
Definition py (s : string) : pystr :=
  N_of_ascii <$> list_ascii_of_string s.

(** [str.isspace] for one code point: the white-space table of CPython's
    Unicode database (it is short enough to be written out). *)
Definition is_space (c : codepoint) : bool :=
  ((9 <=? c) && (c <=? 13)) || ((28 <=? c) && (c <=? 32))
  || (c =? 0x85) || (c =? 0xA0) || (c =? 0x1680)
  || ((0x2000 <=? c) && (c <=? 0x200A))
  || (c =? 0x2028) || (c =? 0x2029) || (c =? 0x202F)
  || (c =? 0x205F) || (c =? 0x3000).

(** [s.lstrip()], [s.rstrip()] and [s.strip()] without argument. *)
Fixpoint lstrip (s : pystr) : pystr :=
  match s with
  | c :: s' => if is_space c then lstrip s' else s
  | [] => []
  end.

Definition rstrip (s : pystr) : pystr := reverse (lstrip (reverse s)).

Definition strip (s : pystr) : pystr := rstrip (lstrip s).

(** A string that [lstrip] (resp. [rstrip]) leaves as it is. *)
Definition starts_clean (l : pystr) : Prop :=
  ∀ c, head l = Some c → is_space c = false.
Definition ends_clean (l : pystr) : Prop :=
  ∀ c, last l = Some c → is_space c = false.

(** [s.replace(a, b)] for one-character [a] and [b]. *)
Definition replace_char (a b : codepoint) (s : pystr) : pystr :=
  (λ c, if c =? a then b else c) <$> s.


(** [s.encode("utf-8")] succeeds: no code point of [s] is a surrogate
    (U+D800 to U+DFFF), the only code points of a [str] that UTF-8 does
    not encode. *)
Definition is_surrogate (c : codepoint) : bool := (0xD800 <=? c) && (c <=? 0xDFFF).
Definition utf8_encodable (s : pystr) : bool := forallb (λ c, negb (is_surrogate c)) s.

(** [s.endswith(suffix)]. *)
Definition endswith (s suffix : pystr) : bool :=
  bool_decide (drop (length s - length suffix)%nat s = suffix).

(** [s.rfind(".")]: the index of the last dot, if there is one. *)
Fixpoint rfind_dot (s : pystr) : option nat :=
  match s with
  | [] => None
  | c :: s' =>
      match rfind_dot s' with
      | Some i => Some (S i)
      | None => if c =? 46 then Some 0%nat else None
      end
  end.

(** [str(n)] for a non-negative integer. *)
Definition str_of_N (n : N) : pystr :=
  py (NilZero.string_of_uint (N.to_uint n)).

End PyStr.
Export PyStr.

(** ** The file-name sanitiser (lines 91-93) *)

(** The ASCII part of [str.isalnum]. *)
Definition ascii_alnum (c : codepoint) : bool :=
  ((48 <=? c) && (c <=? 57)) || ((65 <=? c) && (c <=? 90))
  || ((97 <=? c) && (c <=? 122)).

(** The characters the specification allows in a sanitised name:
    [[A-Za-z0-9_.-]]. *)
Definition ascii_safe (c : codepoint) : bool :=
  ascii_alnum c || (c =? 95) || (c =? 46) || (c =? 45).

Section Sanitizer.

(** The alphanumeric property of the Unicode database for the code
    points above ASCII.  The pattern of [safe_filename] is a [str]
    pattern compiled without [re.ASCII], so [\w] consults it. *)
Variable uni_alnum : codepoint → bool.

(** [\w] of a [str] pattern: [str.isalnum] or the underscore. *)
Definition is_word (c : codepoint) : bool :=
  if c <? 128 then ascii_alnum c || (c =? 95) else uni_alnum c.

(** The complemented class [[^\w\-_\. ]] matches [c] exactly when
    [in_class c] is false. *)
Definition in_class (c : codepoint) : bool :=
  is_word c || (c =? 45) || (c =? 95) || (c =? 46) || (c =? 32).

(** [re.sub(r"[^\w\-_\. ]", "_", s)]: every match is one character. *)
Definition re_sub_class (s : pystr) : pystr :=
  (λ c, if in_class c then c else 95) <$> s.

Definition safe_filename (s : pystr) : pystr :=
  let s2 := re_sub_class s in
  replace_char 32 95 (strip s2).

(** What a character of the sanitised [s] can be: one of
    [[A-Za-z0-9_.-]], or an alphanumeric character of [s] above ASCII. *)
Definition sanitised_char (s : pystr) (c : codepoint) : Prop :=
  ascii_safe c = true ∨ (128 ≤ c ∧ uni_alnum c = true ∧ c ∈ s).

End Sanitizer.

(** The Unicode alphanumeric property on the Latin-1 Supplement block
    (U+0080..U+00FF): the letters, the superscript digits and the vulgar
    fractions.  Outside the block this table answers [false]. *)
Definition latin1_alnum (c : codepoint) : bool :=
  (c =? 0xAA) || (c =? 0xB2) || (c =? 0xB3) || (c =? 0xB5) || (c =? 0xB9)
  || (c =? 0xBA) || ((0xBC <=? c) && (c <=? 0xBE))
  || ((0xC0 <=? c) && (c <=? 0xD6)) || ((0xD8 <=? c) && (c <=? 0xF6))
  || ((0xF8 <=? c) && (c <=? 0xFF)).

(** ** Exceptions and results *)

(** Every handler of the script is [except Exception], so the class of an
    exception is never observed: only its message is ([str(e)]).
    Interrupts ([KeyboardInterrupt], [SystemExit]) are not exceptions in
    that sense and are outside the model. *)
Inductive exn := Exception (msg : pystr).

Definition exn_str (e : exn) : pystr := let 'Exception m := e in m.

Inductive result (A : Type) :=
  | Ok (a : A)
  | Raise (e : exn).
Arguments Ok {A} a.
Arguments Raise {A} e.

(** ** Paths and the file system *)

Module Fs.

(** An absolute path is the list of its components; a file is its
    content (text as code points, binary data as bytes).  Directories are
    implicit in the paths of the files they hold, so [mkdir] leaves the
    file system as it is. *)
Abbreviation path := (list (list N)) (only parsing).
Abbreviation content := (list N) (only parsing).
Abbreviation filesystem := (gmap (list (list N)) (list N)) (only parsing).

(** [p / name] *)
Definition child (p : path) (name : pystr) : path := p ++ [name].

(** [p.name] *)
Definition name (p : path) : pystr := default [] (last p).

(** [str(p)] *)
Definition path_str (p : path) : pystr := mjoin ((λ c, py "/" ++ c) <$> p).

(** [p.stem]: the name without its last suffix; a dot in first or last
    position does not start a suffix. *)
Definition stem (p : path) : pystr :=
  let n := name p in
  match rfind_dot n with
  | Some i => if bool_decide (0 < i < length n - 1)%nat then take i n else n
  | None => n
  end.

(** The order of [str] and of [Path] objects on POSIX: lexicographic on
    code points, then on components. *)
Definition str_compare : pystr → pystr → comparison := list_compare N.compare.
Definition path_compare : path → path → comparison := list_compare str_compare.
Definition path_le (p q : path) : Prop := path_compare p q ≠ Gt.

#[global] Instance path_le_dec : RelDecision path_le.
Proof. intros p q. unfold path_le. apply _. Defined.

(** [sorted(paths)] *)
Definition sorted (l : list path) : list path := merge_sort path_le l.

(** [d.glob("*.wav")]: the entries of directory [d] whose name ends in
    ".wav", in the order the operating system lists them. *)
Definition matches_wav (d p : path) : bool :=
  bool_decide (p = child d (name p)) && endswith (name p) (py ".wav").

Definition glob_wav (d : path) (fs : filesystem) : list path :=
  filter (λ p, matches_wav d p = true) (map_to_list fs).*1.

(** [shutil.rmtree(d)]: what [TemporaryDirectory] does on exit. *)
Definition rmtree (d : path) (fs : filesystem) : filesystem :=
  filter (λ kv, ¬ (d `prefix_of` kv.1)) fs.

End Fs.
Export Fs.

(** ** What the run shows and whom it calls *)

(** [subprocess.CompletedProcess] under [capture_output=True]. *)
Record CompletedProcess := {
  returncode : Z;
  stdout : option pystr;
  stderr : option pystr }.

(** [sr.AudioData]: the raw frames read from a wave file. *)
Abbreviation AudioData := (list N) (only parsing).

(** The messages of the script.  Their wording (Arabic text and emoji) is
    not modelled; each constructor is one message of the source with the
    values it interpolates. *)
Inductive message :=
  | MsgNoUrl | MsgNoYtDlp | MsgNoFfmpeg | MsgMissingLibrary
  | MsgDownloadStart | MsgDownloading
  | MsgUsingCookies (cookie_file : pystr)
  | MsgYtDlpError (rc : Z) (err : pystr)
  | MsgDownloadFailed | MsgDownloadOk
  | MsgNoWav | MsgNoWavFound
  | MsgMoved (dst_wav : path)
  | MsgAudioDownloaded (file_name : pystr)
  | MsgDetecting
  | MsgSampling (seconds : N)
  | MsgDetected (lang : pystr)
  | MsgDetectedLanguage (lang : pystr)
  | MsgDetectFailed (e : exn)
  | MsgDetectInexact
  | MsgNoSampleText | MsgNoSampleTextUseEn
  | MsgSampleError (e : exn)
  | MsgSampleFailedUseEn
  | MsgSplitting
  | MsgSplitCommand (seconds : N)
  | MsgSplitError (err : pystr)
  | MsgSplitFailed
  | MsgSplitDone (total_parts : nat)
  | MsgPartCount (total_parts : nat)
  | MsgTranscribing
  | MsgPart (idx total_parts : nat) (part_name : pystr)
  | MsgPartOk (part_name : pystr) (text_length : nat)
  | MsgPartFailed (part_name : pystr) (e : exn)
  | MsgTextSaved (file_name : pystr)
  | MsgSaved (final_txt : path)
  | MsgPartsFailed (count : nat)
  | MsgFailedList
  | MsgFailedItem (part_name : pystr)
  | MsgAllPartsOk
  | MsgTmpRemoved
  | MsgTmpKept (base_tmp : path).

(** One entry of the trace of a run: a call to a collaborator or a call
    into the user interface, in program order. *)
Inductive event :=
  | CallSubprocess (cmd : list pystr)
  | CallRecord (wav : path) (duration : option N)
  | CallRecognize (audio : AudioData) (language : option pystr)
  | CallDetect (text : pystr)
  | LogArea (lines : list message)
  | StError (m : message)
  | StInfo (m : message)
  | StSuccess (m : message)
  | StWarning (m : message)
  | StWrite (m : message)
  | StCode (body : pystr)
  | PartPreviewInfo (m : message)
  | PartPreviewSuccess (preview : pystr)
  | PartPreviewWarning (m : message)
  | ProgressCreate (percent : Z)
  | ProgressBar (percent : Z)
  | ProgressText (percent : Z)
  | DownloadText (data : content) (file_name : pystr)
  | DownloadAudio (data : content) (file_name : pystr)
  | Balloons
  | Sleep (seconds : float).

(** The collaborators of the script, and the parts of the Python runtime
    that are taken as given.  [world] is the state of everything outside
    the process (network, remote services, the randomness of the language
    identifier); a call may read and change it, and a spawned command may
    also rewrite the file system. *)
Record Externals := {
  world : Type;
  (** [subprocess.run(cmd, capture_output=True, text=True, check=False)] *)
  subprocess_run : list pystr → filesystem → world →
                   result CompletedProcess * filesystem * world;
  (** [recognizer.record(src, duration)] on an opened wave file *)
  wav_record : content → option N → result AudioData;
  (** [recognizer.recognize_google(audio, language=...)] *)
  recognize_google : AudioData → option pystr → world → result pystr * world;
  (** [langdetect.detect(text)] *)
  detect : pystr → world → result pystr * world;
  (** [float(s)] *)
  float_of_str : pystr → result float;
  (** [int((i / n) * 100)] in binary64 arithmetic for [n <> 0]; for the
      lengths of lists the quotient is finite, so none of the three
      operations raises.  Division by zero is modelled apart, in
      [percent_of]. *)
  float_percent : nat → nat → Z;
  (** the alphanumeric property of the Unicode database above ASCII *)
  unicode_alnum : codepoint → bool;
  (** the error, if there is one, with which the operating system
      refuses to create or replace a file at this path (a name that is
      too long, a directory of that name, a directory that cannot be
      written) *)
  os_refuses : path → filesystem → world → option exn }.

(** The module-level values the function reads: the sidebar inputs, the
    results of [shutil.which] and of the imports, the working directory
    and the directory [tempfile] creates. *)
Record Settings := {
  sample_seconds : N;
  segment_seconds : N;
  auto_remove_tmp : bool;
  show_detailed_logs : bool;
  concurrency_sleep : float;
  bin_yt_dlp : bool;
  bin_ffmpeg : bool;
  bin_ffprobe : bool;
  libraries_importable : bool;
  cwd : path;
  base_tmp : path }.

(** ** The state-and-exception monad of the script *)

Section Script.

Variable X : Externals.

(** The file system, the outside world, the trace so far, the global
    [log_text_lines] and the locals of [process_url_to_text] that its
    loop mutates. *)
Record state := {
  fs : filesystem;
  ext : world X;
  trace : list event;
  log_text_lines : list message;
  text_lines : list pystr;
  failed_parts : list pystr;
  parts_processed : nat }.

Definition M (A : Type) : Type := state → result A * state.

Definition ret {A} (a : A) : M A := λ s, (Ok a, s).

Definition bind {A B} (m : M A) (k : A → M B) : M B :=
  λ s, match m s with
       | (Ok a, s') => k a s'
       | (Raise e, s') => (Raise e, s')
       end.

Definition raise {A} (e : exn) : M A := λ s, (Raise e, s).

(** [try: body  except Exception as e: handler e].  What the body did
    to the state before it raised stays done. *)
Definition try_except {A} (body : M A) (handler : exn → M A) : M A :=
  λ s, match body s with
       | (Ok a, s') => (Ok a, s')
       | (Raise e, s') => handler e s'
       end.

Definition get {A} (f : state → A) : M A := λ s, (Ok (f s), s).
Definition modify (f : state → state) : M unit := λ s, (Ok tt, f s).

Definition set_fs (v : filesystem) (s : state) : state :=
  {| fs := v; ext := ext s; trace := trace s;
     log_text_lines := log_text_lines s; text_lines := text_lines s;
     failed_parts := failed_parts s; parts_processed := parts_processed s |}.
Definition set_ext (v : world X) (s : state) : state :=
  {| fs := fs s; ext := v; trace := trace s;
     log_text_lines := log_text_lines s; text_lines := text_lines s;
     failed_parts := failed_parts s; parts_processed := parts_processed s |}.
Definition set_trace (v : list event) (s : state) : state :=
  {| fs := fs s; ext := ext s; trace := v;
     log_text_lines := log_text_lines s; text_lines := text_lines s;
     failed_parts := failed_parts s; parts_processed := parts_processed s |}.
Definition set_log_text_lines (v : list message) (s : state) : state :=
  {| fs := fs s; ext := ext s; trace := trace s;
     log_text_lines := v; text_lines := text_lines s;
     failed_parts := failed_parts s; parts_processed := parts_processed s |}.
Definition set_text_lines (v : list pystr) (s : state) : state :=
  {| fs := fs s; ext := ext s; trace := trace s;
     log_text_lines := log_text_lines s; text_lines := v;
     failed_parts := failed_parts s; parts_processed := parts_processed s |}.
Definition set_failed_parts (v : list pystr) (s : state) : state :=
  {| fs := fs s; ext := ext s; trace := trace s;
     log_text_lines := log_text_lines s; text_lines := text_lines s;
     failed_parts := v; parts_processed := parts_processed s |}.
Definition set_parts_processed (v : nat) (s : state) : state :=
  {| fs := fs s; ext := ext s; trace := trace s;
     log_text_lines := log_text_lines s; text_lines := text_lines s;
     failed_parts := failed_parts s; parts_processed := v |}.

(** A call into the user interface or to a collaborator is appended to
    the trace.  The widgets of the interface do not raise. *)
Definition emit (ev : event) : M unit :=
  modify (λ s, set_trace (trace s ++ [ev]) s).

End Script.

Arguments ret {X A} a.
Arguments bind {X A B} m k.
Arguments raise {X A} e.
Arguments try_except {X A} body handler.
Arguments get {X A} f.
Arguments modify {X} f.
Arguments emit {X} ev.
Arguments fs {X} s.
Arguments ext {X} s.
Arguments trace {X} s.
Arguments log_text_lines {X} s.
Arguments text_lines {X} s.
Arguments failed_parts {X} s.
Arguments parts_processed {X} s.
Arguments set_fs {X} v s.
Arguments set_ext {X} v s.
Arguments set_trace {X} v s.
Arguments set_log_text_lines {X} v s.
Arguments set_text_lines {X} v s.
Arguments set_failed_parts {X} v s.
Arguments set_parts_processed {X} v s.

Declare Scope script_scope.
Delimit Scope script_scope with script.
Notation "x <- c ;; k" := (bind c (λ x, k))
  (at level 100, c at next level, right associativity) : script_scope.
Notation "c ;; k" := (bind c (λ _, k))
  (at level 100, right associativity) : script_scope.

(** ** The script *)

Section Pipeline.

Variable X : Externals.
Variable cfg : Settings.

Local Open Scope script_scope.

Local Abbreviation M := (M X).

(** Truth of a string: it is not empty. *)
Definition truthy (s : pystr) : bool := negb (bool_decide (s = [])).

(** [a or b] on strings, and on a string that may be [None]. *)
Definition str_or (a b : pystr) : pystr := if truthy a then a else b.
Definition opt_or (a : option pystr) (b : pystr) : pystr :=
  match a with
  | Some a' => str_or a' b
  | None => b
  end.

(** Truth of a list: it is not empty. *)
Definition truthy_list {A} (l : list A) : bool :=
  match l with [] => false | _ => true end.

Definition when (b : bool) (m : M unit) : M unit := if b then m else ret tt.

(** *** Calls to the collaborators *)

Definition call_subprocess (cmd : list pystr) : M CompletedProcess :=
  emit (CallSubprocess cmd) ;;
  λ s, let '(r, fs', w') := subprocess_run X cmd (fs s) (ext s) in
       (r, set_ext w' (set_fs fs' s)).

(** [with sr.AudioFile(str(p)) as src: recognizer.record(src, duration)] *)
Definition sr_record (p : path) (duration : option N) : M AudioData :=
  emit (CallRecord p duration) ;;
  λ s, match fs s !! p with
       | Some data => (wav_record X data duration, s)
       | None => (Raise (Exception (py "No such file or directory")), s)
       end.

Definition call_recognize (audio : AudioData) (language : option pystr) : M pystr :=
  emit (CallRecognize audio language) ;;
  λ s, let '(r, w') := recognize_google X audio language (ext s) in
       (r, set_ext w' s).

Definition call_detect (text : pystr) : M pystr :=
  emit (CallDetect text) ;;
  λ s, let '(r, w') := detect X text (ext s) in (r, set_ext w' s).

(** *** The file system, as the script uses it *)

Definition sorted_glob_wav (d : path) : M (list path) :=
  get (λ s, sorted (glob_wav d (fs s))).

(** [shutil.move(src, dst)] of a file.  A destination that the
    operating system refuses makes the renaming fail, and the copy that
    [shutil.move] tries next fail in the same way: the error is raised
    and nothing has moved. *)
Definition shutil_move (src dst : path) : M unit :=
  λ s, match fs s !! src with
       | Some data =>
           match os_refuses X dst (fs s) (ext s) with
           | Some e => (Raise e, s)
           | None => (Ok tt, set_fs (<[dst := data]> (delete src (fs s))) s)
           end
       | None => (Raise (Exception (py "No such file or directory")), s)
       end.

(** [open(p, "w")] creates or truncates the file, unless the operating
    system refuses it: the error is then raised and no file is made. *)
Definition open_w (p : path) : M unit :=
  λ s, match os_refuses X p (fs s) (ext s) with
       | Some e => (Raise e, s)
       | None => (Ok tt, set_fs (<[p := []]> (fs s)) s)
       end.

(** [f.write(data)] on a file opened by [open_w] with
    [encoding="utf-8"].  The text is encoded before anything of it is
    written: a text that cannot be encoded raises [UnicodeEncodeError]
    (only the reason of its message is kept) and leaves the file with
    what was written before, which the [with] block flushes on its way
    out. *)
Definition file_write (p : path) (data : pystr) : M unit :=
  λ s, if utf8_encodable data
       then (Ok tt, set_fs (<[p := default [] (fs s !! p) ++ data]> (fs s)) s)
       else (Raise (Exception (py "surrogates not allowed")), s).

(** [open(p, "rb")] and the reading of the whole file *)
Definition read_file (p : path) : M content :=
  λ s, match fs s !! p with
       | Some data => (Ok data, s)
       | None => (Raise (Exception (py "No such file or directory")), s)
       end.

(** *** Helpers of the script (lines 95-147) *)

Definition run_cmd_capture (cmd : list pystr) : M (Z * pystr * pystr) :=
  try_except
    (completed <- call_subprocess cmd ;;
     ret (returncode completed,
          opt_or (stdout completed) [],
          opt_or (stderr completed) []))
    (λ e, ret (1%Z, [], exn_str e)).

Definition ffprobe_cmd (file_path : path) : list pystr :=
  [py "ffprobe"; py "-v"; py "error"; py "-show_entries";
   py "format=duration"; py "-of";
   py "default=noprint_wrappers=1:nokey=1"; path_str file_path].

Definition get_duration_seconds (file_path : path) : M float :=
  if negb (bin_ffprobe cfg) then ret 0%float
  else
    r <- run_cmd_capture (ffprobe_cmd file_path) ;;
    let '(rc, out, err) := r in
    if (rc =? 0)%Z then
      try_except
        (λ s, (float_of_str X (strip out), s))
        (λ _, ret 0%float)
    else ret 0%float.

(** [log]: the line goes to the global buffer and the last 200 lines
    are shown again.  The time stamp is not modelled. *)
Definition log (msg : message) : M unit :=
  modify (λ s, set_log_text_lines (log_text_lines s ++ [msg]) s) ;;
  lines <- get log_text_lines ;;
  emit (LogArea (drop (length lines - 200) lines)).

(** *** Download (lines 176-219) *)

Definition yt_cmd (tmp_dir : path) (url cookie_file : pystr) : list pystr :=
  [py "yt-dlp"; py "--extract-audio"; py "--audio-format"; py "wav";
   py "--no-playlist";
   py "-o"; path_str (child tmp_dir (py "%(title).100s-%(id)s.%(ext)s"));
   py "--no-warnings"; py "--embed-metadata"]
  ++ (if truthy cookie_file then [py "--cookies"; cookie_file] else [])
  ++ [url].

(** [None] is the early [return]; otherwise [(dst_wav, title_base)]. *)
Definition download_audio (tmp_dir : path) (url cookie_file prefix : pystr)
  : M (option (path * pystr)) :=
  log MsgDownloadStart ;;
  emit (StInfo MsgDownloading) ;;
  when (truthy cookie_file) (log (MsgUsingCookies cookie_file)) ;;
  r <- run_cmd_capture (yt_cmd tmp_dir url cookie_file) ;;
  let '(rc, out, err) := r in
  if negb (rc =? 0)%Z then
    log (MsgYtDlpError rc err) ;;
    emit (StError MsgDownloadFailed) ;;
    when (show_detailed_logs cfg) (emit (StCode (str_or err out))) ;;
    ret None
  else
    log MsgDownloadOk ;;
    wav_files <- sorted_glob_wav tmp_dir ;;
    match wav_files with
    | [] =>
        log MsgNoWav ;;
        emit (StError MsgNoWavFound) ;;
        ret None
    | src_wav :: _ =>
        let title_base := safe_filename (unicode_alnum X) (stem src_wav) in
        let title_base :=
          if truthy prefix
          then safe_filename (unicode_alnum X) prefix ++ py "_" ++ title_base
          else title_base in
        let dst_wav := child (cwd cfg) (title_base ++ py ".wav") in
        shutil_move src_wav dst_wav ;;
        log (MsgMoved dst_wav) ;;
        emit (StSuccess (MsgAudioDownloaded (name dst_wav))) ;;
        ret (Some (dst_wav, title_base))
    end.

(** *** Language detection from a short sample (lines 221-254) *)

Definition detect_language (dst_wav : path) : M pystr :=
  emit (StInfo MsgDetecting) ;;
  log (MsgSampling (sample_seconds cfg)) ;;
  try_except
    (sample_audio <- sr_record dst_wav (Some (sample_seconds cfg)) ;;
     sample_text <-
       try_except (call_recognize sample_audio None)
         (λ _, try_except (call_recognize sample_audio (Some (py "ar")))
                 (λ _, ret [])) ;;
     if truthy (strip sample_text) then
       try_except
         (detected_lang <- call_detect sample_text ;;
          log (MsgDetected detected_lang) ;;
          emit (StSuccess (MsgDetectedLanguage detected_lang)) ;;
          ret detected_lang)
         (λ e,
          log (MsgDetectFailed e) ;;
          emit (StWarning MsgDetectInexact) ;;
          ret (py "en"))
     else
       log MsgNoSampleText ;;
       emit (StWarning MsgNoSampleTextUseEn) ;;
       ret (py "en"))
    (λ e,
     log (MsgSampleError e) ;;
     emit (StWarning MsgSampleFailedUseEn) ;;
     ret (py "en")).

(** *** Splitting (lines 256-276) *)

Definition split_cmd (dst_wav split_dir : path) : list pystr :=
  [py "ffmpeg"; py "-y"; py "-i"; path_str dst_wav;
   py "-f"; py "segment";
   py "-segment_time"; str_of_N (segment_seconds cfg);
   py "-c"; py "copy";
   path_str (child split_dir (py "part_%03d.wav"))].

(** [None] is the early [return]; otherwise [split_files]. *)
Definition split_audio (dst_wav split_dir : path) : M (option (list path)) :=
  emit (StInfo MsgSplitting) ;;
  log (MsgSplitCommand (segment_seconds cfg)) ;;
  r <- run_cmd_capture (split_cmd dst_wav split_dir) ;;
  let '(rc, out, err) := r in
  if negb (rc =? 0)%Z then
    log (MsgSplitError err) ;;
    emit (StError MsgSplitFailed) ;;
    when (show_detailed_logs cfg) (emit (StCode (str_or err out))) ;;
    ret None
  else
    split_files <- sorted_glob_wav split_dir ;;
    let total_parts := length split_files in
    emit (StSuccess (MsgSplitDone total_parts)) ;;
    log (MsgPartCount total_parts) ;;
    ret (Some split_files).

(** *** The transcription loop (lines 278-325) *)

(** [int((parts_processed / total_parts) * 100)] *)
Definition percent_of (parts_processed total_parts : nat) : M Z :=
  if bool_decide (total_parts = 0%nat)
  then raise (Exception (py "division by zero"))
  else ret (float_percent X parts_processed total_parts).

(** The nested [try] blocks of lines 297-310. *)
Definition recognize_with_fallbacks (audio_data : AudioData) (detected_lang : pystr)
  : M pystr :=
  try_except (call_recognize audio_data (Some detected_lang))
    (λ e1,
     try_except (call_recognize audio_data None)
       (λ _,
        try_except (call_recognize audio_data (Some (py "ar")))
          (λ _,
           try_except (call_recognize audio_data (Some (py "en")))
             (λ e_final, raise e_final)))).

(** One iteration of the [for] loop. *)
Definition transcribe_part (total_parts : nat) (detected_lang : pystr)
    (idx : nat) (part : path) : M unit :=
  modify (λ s, set_parts_processed (S (parts_processed s)) s) ;;
  let prefix_msg := MsgPart idx total_parts (name part) in
  log prefix_msg ;;
  emit (PartPreviewInfo prefix_msg) ;;
  try_except
    (audio_data <- sr_record part None ;;
     text <- recognize_with_fallbacks audio_data detected_lang ;;
     modify (λ s, set_text_lines (text_lines s ++ [text]) s) ;;
     let preview :=
       take 600 text ++ (if bool_decide (600 < length text)%nat then py "..." else []) in
     emit (PartPreviewSuccess preview) ;;
     log (MsgPartOk (name part) (length text)))
    (λ e,
     modify (λ s, set_failed_parts (failed_parts s ++ [name part]) s) ;;
     log (MsgPartFailed (name part) e) ;;
     emit (PartPreviewWarning (MsgPartFailed (name part) e))) ;;
  processed <- get parts_processed ;;
  percent <- percent_of processed total_parts ;;
  emit (ProgressBar percent) ;;
  emit (ProgressText percent) ;;
  emit (Sleep (concurrency_sleep cfg)).

(** [for idx, part in enumerate(split_files, start=1)], from [idx] on. *)
Fixpoint transcribe_loop (total_parts : nat) (detected_lang : pystr)
    (idx : nat) (parts : list path) : M unit :=
  match parts with
  | [] => ret tt
  | part :: rest =>
      transcribe_part total_parts detected_lang idx part ;;
      transcribe_loop total_parts detected_lang (S idx) rest
  end.

Definition transcribe_parts (split_files : list path) (detected_lang : pystr) : M unit :=
  let total_parts := length split_files in
  emit (StInfo MsgTranscribing) ;;
  modify (set_text_lines []) ;;
  modify (set_failed_parts []) ;;
  emit (ProgressCreate 0) ;;
  modify (set_parts_processed 0) ;;
  transcribe_loop total_parts detected_lang 1 split_files.

(** *** The final text (lines 327-333) *)

(** [for line in text_lines: f.write(line + "\n\n")]; the line feed is
    code point 10. *)
Fixpoint write_lines (final_txt : path) (lines : list pystr) : M unit :=
  match lines with
  | [] => ret tt
  | line :: rest =>
      file_write final_txt (line ++ [10; 10]) ;;
      write_lines final_txt rest
  end.

Definition save_final_text (title_base : pystr) : M path :=
  let final_txt := child (cwd cfg) (title_base ++ py ".txt") in
  open_w final_txt ;;
  lines <- get text_lines ;;
  write_lines final_txt lines ;;
  emit (StSuccess (MsgTextSaved (name final_txt))) ;;
  log (MsgSaved final_txt) ;;
  ret final_txt.

(** *** The report and the downloads (lines 335-360) *)

Fixpoint write_failed (failed : list pystr) : M unit :=
  match failed with
  | [] => ret tt
  | p :: rest => emit (StWrite (MsgFailedItem p)) ;; write_failed rest
  end.

(** Lines 336-342: the failed parts, or the message that there are
    none. *)
Definition report_failures : M unit :=
  failed <- get failed_parts ;;
  if truthy_list failed then
    emit (StError (MsgPartsFailed (length failed))) ;;
    emit (StWrite MsgFailedList) ;;
    write_failed failed
  else emit (StSuccess MsgAllPartsOk).

(** Lines 344-360: the two download buttons and the end of the run. *)
Definition offer_downloads (final_txt dst_wav : path) : M unit :=
  text_data <- read_file final_txt ;;
  emit (DownloadText text_data (name final_txt)) ;;
  audio_data <- read_file dst_wav ;;
  emit (DownloadAudio audio_data (name dst_wav)) ;;
  (if auto_remove_tmp cfg then log MsgTmpRemoved
   else emit (StInfo (MsgTmpKept (base_tmp cfg)))) ;;
  emit Balloons ;;
  emit (ProgressBar 100).

(** Lines 327-342: the aggregation of the outcomes into the text file
    and the list of failures. *)
Definition assemble (title_base : pystr) : M path :=
  final_txt <- save_final_text title_base ;;
  report_failures ;;
  ret final_txt.

(** *** The whole run (lines 150-360) *)

(** [with tempfile.TemporaryDirectory(...) as base_tmp: body]: the
    directory is removed on the way out, however the body ends. *)
Definition with_temporary_directory {A} (body : M A) : M A :=
  λ s, let '(r, s') := body s in
       (r, set_fs (rmtree (base_tmp cfg) (fs s')) s').

Definition process_url_to_text (url cookie_file prefix : pystr) : M unit :=
  if negb (truthy url) then emit (StError MsgNoUrl)
  else if negb (bin_yt_dlp cfg) then emit (StError MsgNoYtDlp)
  else if negb (bin_ffmpeg cfg) then emit (StError MsgNoFfmpeg)
  else if negb (libraries_importable cfg) then emit (StError MsgMissingLibrary)
  else
    with_temporary_directory
      (let tmp_dir := child (base_tmp cfg) (py "download") in
       let split_dir := child (base_tmp cfg) (py "split") in
       acquired <- download_audio tmp_dir url cookie_file prefix ;;
       match acquired with
       | None => ret tt
       | Some (dst_wav, title_base) =>
           detected_lang <- detect_language dst_wav ;;
           split <- split_audio dst_wav split_dir ;;
           match split with
           | None => ret tt
           | Some split_files =>
               transcribe_parts split_files detected_lang ;;
               final_txt <- assemble title_base ;;
               offer_downloads final_txt dst_wav
           end
       end).

End Pipeline.

(** ** The transcription loop as the specification words it *)

(** [transcribeAll(segments, languageCode, onProgress)] of the
    specification, section 4.6, with the fallback chain written as its
    design notes suggest: an ordered list of language hints tried in
    sequence, stopping at the first success. *)

(** A [TranscriptionOutcome]: the recognised text, or a failure marker
    with the name of the segment. *)
Inductive outcome :=
  | Transcribed (text : pystr)
  | Failed (part_name : pystr).

Definition successes (outs : list outcome) : list pystr :=
  omap (λ o, match o with Transcribed text => Some text | Failed _ => None end) outs.

Definition failures (outs : list outcome) : list pystr :=
  omap (λ o, match o with Failed n => Some n | Transcribed _ => None end) outs.

(** What is watched of a run of the loop: the start of a segment, each
    recognition attempt with its language hint, how the segment ended,
    and the progress update. *)
Inductive milestone :=
  | Started (idx : nat) (part_name : pystr)
  | Attempt (language : option pystr)
  | Succeeded
  | GaveUp (part_name : pystr)
  | Progress (percent : Z).

Definition milestone_of (ev : event) : option milestone :=
  match ev with
  | PartPreviewInfo (MsgPart idx _ n) => Some (Started idx n)
  | CallRecognize _ language => Some (Attempt language)
  | PartPreviewSuccess _ => Some Succeeded
  | PartPreviewWarning (MsgPartFailed n _) => Some (GaveUp n)
  | ProgressBar percent => Some (Progress percent)
  | _ => None
  end.

Definition milestones (tr : list event) : list milestone := omap milestone_of tr.

Definition is_attempt (m : milestone) : bool :=
  match m with Attempt _ => true | _ => false end.

Definition progress_of (m : milestone) : option Z :=
  match m with Progress percent => Some percent | _ => None end.

Section TranscribeAll.

Variable X : Externals.

(** The hints of steps 2-5, in order. *)
Definition fallback_hints (language_code : pystr) : list (option pystr) :=
  [Some language_code; None; Some (py "ar"); Some (py "en")].

(** The first success among the attempts, the world after them, and
    the hints that were tried. *)
Fixpoint first_success (audio : AudioData) (hints : list (option pystr))
    (w : world X) : option pystr * world X * list (option pystr) :=
  match hints with
  | [] => (None, w, [])
  | hint :: rest =>
      match recognize_google X audio hint w with
      | (Ok text, w') => (Some text, w', [hint])
      | (Raise _, w') =>
          let '(r, w'', tried) := first_success audio rest w' in
          (r, w'', hint :: tried)
      end
  end.

(** Steps 1-6 for one segment. *)
Definition transcribe_segment (language_code : pystr) (files : filesystem)
    (segment : path) (w : world X)
  : outcome * list (option pystr) * world X :=
  match files !! segment with
  | None => (Failed (name segment), [], w)
  | Some data =>
      match wav_record X data None with
      | Raise _ => (Failed (name segment), [], w)
      | Ok audio =>
          match first_success audio (fallback_hints language_code) w with
          | (Some text, w', tried) => (Transcribed text, tried, w')
          | (None, w', tried) => (Failed (name segment), tried, w')
          end
      end
  end.

(** One outcome per segment, in order, with the hints tried for it. *)
Fixpoint transcribeAll (language_code : pystr) (files : filesystem)
    (segments : list path) (w : world X)
  : list (outcome * list (option pystr)) * world X :=
  match segments with
  | [] => ([], w)
  | segment :: rest =>
      let '(o, tried, w') := transcribe_segment language_code files segment w in
      let '(outs, w'') := transcribeAll language_code files rest w' in
      ((o, tried) :: outs, w'')
  end.

(** The milestones the specification expects of segment number [idx]
    of [total]. *)
Definition segment_milestones (percent : nat → nat → Z) (total idx : nat)
    (segment : path) (o : outcome) (tried : list (option pystr)) : list milestone :=
  [Started idx (name segment)]
  ++ (Attempt <$> tried)
  ++ [match o with Transcribed _ => Succeeded | Failed n => GaveUp n end;
      Progress (percent idx total)].

Fixpoint loop_milestones (percent : nat → nat → Z) (total idx : nat)
    (segments : list path) (outs : list (outcome * list (option pystr)))
  : list milestone :=
  match segments, outs with
  | segment :: segments', (o, tried) :: outs' =>
      segment_milestones percent total idx segment o tried
      ++ loop_milestones percent total (S idx) segments' outs'
  | _, _ => []
  end.

End TranscribeAll.

(** The fallback chain was followed for [segment]: the hints tried are
    an initial part of the chain; a text was recognised by the last hint
    tried; a failure carries the name of the segment and comes either
    from a segment that could not be read (nothing tried) or from the
    whole chain failing. *)
Definition chain_followed (language_code : pystr) (segment : path)
    (r : outcome * list (option pystr)) : Prop :=
  r.2 `prefix_of` fallback_hints language_code
  ∧ match r.1 with
    | Transcribed _ => r.2 ≠ []
    | Failed n => n = name segment ∧ (r.2 = [] ∨ r.2 = fallback_hints language_code)
    end.

(** ** Language detection as the specification words it *)

(** The texts that reach the file: those before the first one that
    UTF-8 cannot encode. *)
Fixpoint encodable_prefix (lines : list pystr) : list pystr :=
  match lines with
  | [] => []
  | line :: rest => if utf8_encodable line then line :: encodable_prefix rest else []
  end.


(** The download tool failed: the spawn raised, or the command
    completed with a return code other than zero. *)
Definition tool_failed (spawn : result CompletedProcess) : Prop :=
  match spawn with
  | Ok completed => returncode completed ≠ 0%Z
  | Raise _ => True
  end.

(** The commands the run spawned, in order. *)
Definition spawned (tr : list event) : list (list pystr) :=
  omap (λ ev, match ev with CallSubprocess cmd => Some cmd | _ => None end) tr.

(** The names shown in the list of failed parts, in order. *)
Definition failed_items (tr : list event) : list pystr :=
  omap (λ ev, match ev with StWrite (MsgFailedItem p) => Some p | _ => None end) tr.

(** The texts handed to the language identifier, in order. *)
Definition detect_calls (tr : list event) : list pystr :=
  omap (λ ev, match ev with CallDetect text => Some text | _ => None end) tr.

Section DetectLanguage.

Variable X : Externals.
Variable cfg : Settings.

(** Steps 1 and 2 of section 4.4: the text of the sample after the
    attempt without hint and, if it failed, the attempt with "ar"
    (empty when both failed), and the world after them.  [None] when
    the sample itself cannot be read. *)
Definition sample_text (files : filesystem) (audio_file : path) (w : world X)
  : option (pystr * world X) :=
  match files !! audio_file with
  | None => None
  | Some data =>
      match wav_record X data (Some (sample_seconds cfg)) with
      | Raise _ => None
      | Ok sample =>
          let '(r, w', _) := first_success X sample [None; Some (py "ar")] w in
          Some (default [] r, w')
      end
  end.

(** Steps 3 to 5: the language code, and the texts handed to the
    identification capability. *)
Definition detectLanguage (files : filesystem) (audio_file : path) (w : world X)
  : pystr * list pystr :=
  match sample_text files audio_file w with
  | None => (py "en", [])
  | Some (text, w') =>
      if truthy (strip text) then
        (match (detect X text w').1 with
         | Ok code => code
         | Raise _ => py "en"
         end, [text])
      else (py "en", [])
  end.

End DetectLanguage.

(** ** Scripted collaborators, for concrete runs *)

Module Demo.

(** [int((i / n) * 100)] evaluated in binary64, as CPython does for
    machine-size operands and [n <> 0]. *)
Definition b64_of_nat (n : nat) : float :=
  PrimFloat.of_uint63 (Uint63.of_Z (Z.of_nat n)).

Definition b64_trunc (x : float) : Z :=
  match Prim2SF x with
  | S754_finite sign m e =>
      let magnitude :=
        if (0 <=? e)%Z then Z.shiftl (Z.pos m) e else Z.shiftr (Z.pos m) (- e) in
      if sign then (- magnitude)%Z else magnitude
  | _ => 0%Z
  end.

Definition b64_percent (i n : nat) : Z :=
  b64_trunc (PrimFloat.mul (PrimFloat.div (b64_of_nat i) (b64_of_nat n)) 100%float).

(** [float] of a string of decimal digits; anything else is refused. *)
Fixpoint digits_value (acc : N) (s : pystr) : option N :=
  match s with
  | [] => Some acc
  | c :: s' =>
      if (48 <=? c) && (c <=? 57) then digits_value (10 * acc + (c - 48)) s'
      else None
  end.

Definition float_of_digits (s : pystr) : result float :=
  match s, digits_value 0 s with
  | _ :: _, Some n => Ok (PrimFloat.of_uint63 (Uint63.of_Z (Z.of_N n)))
  | _, _ => Raise (Exception (py "could not convert string to float"))
  end.

Definition completed (rc : Z) : CompletedProcess :=
  {| returncode := rc; stdout := Some []; stderr := Some [] |}.

(** Collaborators given by three functions.  The world is the number
    of recognition requests made so far. *)
Definition scripted
    (spawn : list pystr → filesystem → result CompletedProcess * filesystem)
    (recognize : nat → AudioData → option pystr → result pystr)
    (identify : pystr → result pystr) : Externals :=
  {| world := nat;
     subprocess_run cmd files w := (spawn cmd files, w);
     wav_record data duration := Ok data;
     recognize_google audio language w := (recognize w audio language, S w);
     detect text w := (identify text, w);
     float_of_str := float_of_digits;
     float_percent := b64_percent;
     unicode_alnum := latin1_alnum;
     os_refuses p files w := None |}.

Definition home : path := [py "home"; py "user"].
Definition scratch : path := [py "tmp"; py "vid2text_k3"].

Definition settings : Settings :=
  {| sample_seconds := 20;
     segment_seconds := 300;
     auto_remove_tmp := true;
     show_detailed_logs := false;
     concurrency_sleep := 0.5%float;
     bin_yt_dlp := true;
     bin_ffmpeg := true;
     bin_ffprobe := true;
     libraries_importable := true;
     cwd := home;
     base_tmp := scratch |}.

(** The download tool leaves one wave file of three bytes, the
    splitting tool cuts it into three parts, the probing tool prints
    a duration; any other command is not found. *)
Definition tools (cmd : list pystr) (files : filesystem)
  : result CompletedProcess * filesystem :=
  match cmd with
  | prog :: _ =>
      if bool_decide (prog = py "yt-dlp") then
        (Ok (completed 0),
         <[child (child scratch (py "download")) (py "My Talk! (2020)-x1.wav") := [1; 2; 3]]>
           files)
      else if bool_decide (prog = py "ffmpeg") then
        (Ok (completed 0),
         <[child (child scratch (py "split")) (py "part_000.wav") := [1]]>
           (<[child (child scratch (py "split")) (py "part_001.wav") := [2]]>
              (<[child (child scratch (py "split")) (py "part_002.wav") := [3]]>
                 files)))
      else if bool_decide (prog = py "ffprobe") then
        (Ok {| returncode := 0; stdout := Some (py "650 "); stderr := Some [] |}, files)
      else (Raise (Exception (py "No such file or directory")), files)
  | [] => (Raise (Exception (py "list index out of range")), files)
  end.

Definition without_yt_dlp : Settings :=
  {| sample_seconds := 20;
     segment_seconds := 300;
     auto_remove_tmp := true;
     show_detailed_logs := false;
     concurrency_sleep := 0.5%float;
     bin_yt_dlp := false;
     bin_ffmpeg := true;
     bin_ffprobe := true;
     libraries_importable := true;
     cwd := home;
     base_tmp := scratch |}.

(** A recogniser that understands every audio but the one-byte audio
    [2], whatever the hint. *)
Definition hears (w : nat) (audio : AudioData) (language : option pystr)
  : result pystr :=
  if bool_decide (audio = [2]) then Raise (Exception (py "UnknownValueError"))
  else Ok (py "words of " ++ str_of_N (default 0 (head audio))).

(** A recogniser that answers with an empty transcript. *)
Definition mute (w : nat) (audio : AudioData) (language : option pystr)
  : result pystr := Ok [].

Definition french (text : pystr) : result pystr := Ok (py "fr").

(** The same tools, but the download exits with code 1 and leaves
    nothing. *)
Definition broken_tools (cmd : list pystr) (files : filesystem)
  : result CompletedProcess * filesystem :=
  match cmd with
  | prog :: _ =>
      if bool_decide (prog = py "yt-dlp") then (Ok (completed 1), files)
      else tools cmd files
  | [] => tools cmd files
  end.

(** The same tools, but the splitting tool exits with code 0 and
    leaves no part. *)
Definition tools_without_parts (cmd : list pystr) (files : filesystem)
  : result CompletedProcess * filesystem :=
  match cmd with
  | prog :: _ =>
      if bool_decide (prog = py "ffmpeg") then (Ok (completed 0), files)
      else tools cmd files
  | [] => tools cmd files
  end.

Definition studio : Externals := scripted tools hears french.



(** The studio whose split leaves no part, in a working directory that
    holds directories called "talk.txt" and "My_Talk___2020_-x1.txt", so
    that no file of these names can be written there. *)
Definition crowded_studio : Externals :=
  {| world := nat;
     subprocess_run cmd files w := (tools_without_parts cmd files, w);
     wav_record data duration := Ok data;
     recognize_google audio language w := (hears w audio language, S w);
     detect text w := (french text, w);
     float_of_str := float_of_digits;
     float_percent := b64_percent;
     unicode_alnum := latin1_alnum;
     os_refuses p files w :=
       if bool_decide (p = child home (py "talk.txt")
                       ∨ p = child home (py "My_Talk___2020_-x1.txt"))
       then Some (Exception (py "Is a directory"))
       else None |}.
Definition studio_without_parts : Externals := scripted tools_without_parts hears french.
Definition offline_studio : Externals := scripted broken_tools hears french.
Definition silent_studio : Externals := scripted tools mute french.

(** The state in which a run starts. *)
Definition start (X : Externals) (w : world X) (files : filesystem) : state X :=
  {| fs := files; ext := w; trace := []; log_text_lines := [];
     text_lines := []; failed_parts := []; parts_processed := 0 |}.

Definition part (n : pystr) : path := child (child scratch (py "split")) n.

Definition three_parts : list path :=
  [part (py "part_000.wav"); part (py "part_001.wav"); part (py "part_002.wav")].

Definition talk_url : pystr := py "https://example.org/v".

(** The file system once the audio is acquired and split. *)
Definition split_files_on_disk : filesystem :=
  (tools [py "ffmpeg"] (<[child home (py "talk.wav") := [1; 2; 3]]> ∅)).2.

End Demo.

(** * The rest of the script *)

(** ** The sanitiser, character by character *)

(** [s.strip(" ")]: only the space is removed at both ends. *)
Fixpoint lstrip_spaces (s : pystr) : pystr :=
  match s with
  | c :: s' => if c =? 32 then lstrip_spaces s' else s
  | [] => []
  end.

Definition strip_spaces (s : pystr) : pystr :=
  reverse (lstrip_spaces (reverse (lstrip_spaces s))).

(** What [safe_filename] makes of one character that is not cut off:
    the space and every character outside the class become an
    underscore. *)
Definition sanitise_one (uni_alnum : codepoint → bool) (c : codepoint) : codepoint :=
  if c =? 32 then 95 else if in_class uni_alnum c then c else 95.

(** In the Unicode database no alphanumeric character is white space. *)
Definition word_not_space (uni_alnum : codepoint → bool) : Prop :=
  ∀ c, 128 ≤ c → uni_alnum c = true → is_space c = false.

(** ** What a computation may add to the trace *)

(** [m] only appends to the trace, and every event it appends satisfies
    [P], whether [m] returns or raises. *)
Definition emits_only {X : Externals} {A : Type} (P : event → Prop) (m : M X A) : Prop :=
  ∀ s, ∃ evs, trace (m s).2 = trace s ++ evs ∧ Forall P evs.

Definition is_spawn (ev : event) : bool :=
  match ev with CallSubprocess _ => true | _ => false end.

Definition is_log_area (ev : event) : bool :=
  match ev with LogArea _ => true | _ => false end.


(** The only commands are the download tool and the splitting tool, and
    the log area never shows more than 200 lines. *)
Definition tidy (ev : event) : Prop :=
  match ev with
  | CallSubprocess cmd => head cmd = Some (py "yt-dlp") ∨ head cmd = Some (py "ffmpeg")
  | LogArea lines => (length lines ≤ 200)%nat
  | _ => True
  end.

(** ** What a computation may spend *)

(** The calls to the collaborators of the recognition: the reading of a
    wave file, the recogniser and the language identifier. *)
Definition is_record (ev : event) : bool :=
  match ev with CallRecord _ _ => true | _ => false end.
Definition is_recognition (ev : event) : bool :=
  match ev with CallRecognize _ _ => true | _ => false end.
Definition is_identification (ev : event) : bool :=
  match ev with CallDetect _ => true | _ => false end.
Definition is_call (ev : event) : bool :=
  is_record ev || is_recognition ev || is_identification ev.

Definition one_if (f : event → bool) (ev : event) : nat := if f ev then 1 else 0.

Definition spent (cost : event → nat) (evs : list event) : nat :=
  sum_list_with cost evs.

(** How many of the events are of kind [f]. *)
Definition calls (f : event → bool) (evs : list event) : nat :=
  length (filter (λ ev, f ev = true) evs).

Definition emits_at_most {X : Externals} {A : Type}
    (cost : event → nat) (k : nat) (m : M X A) : Prop :=
  ∀ s, ∃ evs, trace (m s).2 = trace s ++ evs ∧ (spent cost evs ≤ k)%nat.

(** ** The download buttons *)



(** ** The progress reader (lines 103-121) *)

(** *** The pattern [time=(\d+):(\d+):(\d+\.\d+)] *)

(** [\d] of a [str] pattern: the ASCII digits, and above ASCII the
    decimal digits of the Unicode database. *)
Definition is_digit (uni_decimal : codepoint → bool) (c : codepoint) : bool :=
  ((48 <=? c) && (c <=? 57)) || ((128 <=? c) && uni_decimal c).

Section TimePattern.

Variable uni_decimal : codepoint → bool.

(** The longest run of digits at the head of [s], and what follows. *)
Fixpoint span_digits (s : pystr) : pystr * pystr :=
  match s with
  | c :: s' =>
      if is_digit uni_decimal c
      then let '(ds, rest) := span_digits s' in (c :: ds, rest)
      else ([], s)
  | [] => ([], [])
  end.

(** [\d+] at the head of [s].  The repetition is greedy, and in the
    pattern each [\d+] is followed by a character that is not a digit
    or by nothing, so giving back digits never helps: the longest run
    is the only one that can match. *)
Definition digits1 (s : pystr) : option (pystr * pystr) :=
  match span_digits s with
  | ([], _) => None
  | (ds, rest) => Some (ds, rest)
  end.

(** A literal at the head of [s]. *)
Fixpoint literal (lit s : pystr) : option pystr :=
  match lit, s with
  | [], _ => Some s
  | a :: lit', c :: s' => if a =? c then literal lit' s' else None
  | _ :: _, [] => None
  end.

(** The pattern at the head of [s]: the three groups. *)
Definition match_time_here (s : pystr) : option (pystr * pystr * pystr) :=
  match literal (py "time=") s with
  | None => None
  | Some s0 =>
  match digits1 s0 with
  | None => None
  | Some (h, s1) =>
  match literal (py ":") s1 with
  | None => None
  | Some s2 =>
  match digits1 s2 with
  | None => None
  | Some (mm, s3) =>
  match literal (py ":") s3 with
  | None => None
  | Some s4 =>
  match digits1 s4 with
  | None => None
  | Some (whole, s5) =>
  match literal (py ".") s5 with
  | None => None
  | Some s6 =>
  match digits1 s6 with
  | None => None
  | Some (frac, _) => Some (h, mm, whole ++ py "." ++ frac)
  end end end end end end end end.

(** [re.search(pattern, line)] followed by [m.groups()]: the leftmost
    match. *)
Fixpoint search_time (line : pystr) : option (pystr * pystr * pystr) :=
  match match_time_here line with
  | Some groups => Some groups
  | None =>
      match line with
      | [] => None
      | _ :: rest => search_time rest
      end
  end.

End TimePattern.

(** *** The numbers *)

(** Truth of a float: it is not zero (a NaN is true). *)
Definition float_truthy (x : float) : bool := negb (PrimFloat.eqb x 0).

(** [int(x)] of a float: the truncation toward zero; a NaN and the
    infinities are refused. *)
Definition int_of_float (x : float) : result Z :=
  match Prim2SF x with
  | S754_zero _ => Ok 0%Z
  | S754_finite sign m e =>
      let magnitude :=
        if (0 <=? e)%Z then Z.shiftl (Z.pos m) e else Z.shiftr (Z.pos m) (- e) in
      Ok (if sign then (- magnitude)%Z else magnitude)
  | S754_infinity _ => Raise (Exception (py "cannot convert float infinity to integer"))
  | S754_nan => Raise (Exception (py "cannot convert float NaN to integer"))
  end.

(** What the progress reader takes from outside, besides the
    collaborators of the run: the process it opens, and the conversions
    of the Python runtime on the strings and integers it meets. *)
Record Streaming (X : Externals) := {
  (** [subprocess.Popen(cmd, stderr=PIPE, stdout=DEVNULL, text=True,
      bufsize=1)], run to its end: the lines of the standard error
      stream ([None] when the process has no such stream) and the return
      code.  What the process does to the file system and to the world
      is done when the lines are read. *)
  popen : list pystr → filesystem → world X →
          result (option (list pystr) * Z) * filesystem * world X;
  (** the decimal digits of the Unicode database above ASCII *)
  unicode_decimal : codepoint → bool;
  (** [int(s)] on a string of digits *)
  int_of_str : pystr → result Z;
  (** the conversion of an [int] to a [float] that [int + float] makes *)
  float_of_int : Z → result float }.

Arguments popen {X} _ _ _ _.
Arguments unicode_decimal {X} _ _.
Arguments int_of_str {X} _ _.
Arguments float_of_int {X} _ _.

Section ProgressReader.

Variable X : Externals.
Variable cfg : Settings.
Variable R : Streaming X.

Local Open Scope script_scope.

(** A value or an exception of the runtime, in the monad. *)
Definition lift {A} (r : result A) : M X A := λ s, (r, s).

Definition call_popen (cmd : list pystr) : M X (option (list pystr) * Z) :=
  emit (CallSubprocess cmd) ;;
  λ s, let '(r, fs', w') := popen R cmd (fs s) (ext s) in
       (r, set_ext w' (set_fs fs' s)).

(** Lines 116-118:
    [min(int(((int(h) * 3600 + int(mm) * 60 + float(ss)) / total_seconds) * 100), 100)],
    in the order in which Python evaluates it. *)
Definition elapsed_percent (h mm ss : pystr) (total_seconds : float) : M X Z :=
  hours <- lift (int_of_str R h) ;;
  minutes <- lift (int_of_str R mm) ;;
  seconds <- lift (float_of_str X ss) ;;
  whole <- lift (float_of_int R (hours * 3600 + minutes * 60)) ;;
  let elapsed := PrimFloat.add whole seconds in
  ratio <- (if PrimFloat.eqb total_seconds 0
            then raise (Exception (py "float division by zero"))
            else ret (PrimFloat.div elapsed total_seconds)) ;;
  truncated <- lift (int_of_float (PrimFloat.mul ratio 100)) ;;
  ret (Z.min truncated 100).

(** The body of the [for] loop, line after line.  The two widgets are
    arguments of the function: [area_text] is [log_output_area.text]
    and [bar_progress] is [prog_bar.progress]. *)
Fixpoint read_progress (total_seconds : float)
    (area_text : pystr → M X unit) (bar_progress : Z → M X unit)
    (lines : list pystr) : M X unit :=
  match lines with
  | [] => ret tt
  | line :: rest =>
      when X (show_detailed_logs cfg) (area_text (strip line)) ;;
      match search_time (unicode_decimal R) line with
      | Some (h, mm, ss) =>
          if float_truthy total_seconds then
            percent <- elapsed_percent h mm ss total_seconds ;;
            bar_progress percent
          else ret tt
      | None => ret tt
      end ;;
      read_progress total_seconds area_text bar_progress rest
  end.

Definition stream_ffmpeg_progress (cmd : list pystr) (total_seconds : float)
    (area_text : pystr → M X unit) (bar_progress : Z → M X unit) : M X Z :=
  proc <- call_popen cmd ;;
  let '(proc_stderr, rc) := proc in
  match proc_stderr with
  | None => ret rc
  | Some lines =>
      read_progress total_seconds area_text bar_progress lines ;;
      ret rc
  end.

End ProgressReader.

(** *** What a match looks like *)

(** A non-empty string of digits. *)
Definition number (uni_decimal : codepoint → bool) (s : pystr) : Prop :=
  s ≠ [] ∧ Forall (λ c, is_digit uni_decimal c = true) s.

(** A string that does not go on with a digit. *)
Definition no_digit_first (uni_decimal : codepoint → bool) (s : pystr) : Prop :=
  match s with
  | c :: _ => is_digit uni_decimal c = false
  | [] => True
  end.

(** [h:mm:ss] after "time=", as ffmpeg prints it. *)
Definition time_stamp (h mm ss : pystr) : pystr :=
  py "time=" ++ h ++ py ":" ++ mm ++ py ":" ++ ss.

(** ** A scripted process, for concrete readings *)

Module Booth.

(** [float] of "digits.digits", and of a string of digits.  The
    quotient is the correctly rounded value of the number as long as
    its digits, read as one integer, are below 2^53. *)
Fixpoint split_dot (s : pystr) : pystr * option pystr :=
  match s with
  | [] => ([], None)
  | c :: s' =>
      if c =? 46 then ([], Some s')
      else let '(whole, frac) := split_dot s' in (c :: whole, frac)
  end.

Definition b64_of_N (n : N) : float := PrimFloat.of_uint63 (Uint63.of_Z (Z.of_N n)).

Definition float_of_decimal (s : pystr) : result float :=
  match split_dot s with
  | ((_ :: _) as whole, Some ((_ :: _) as frac)) =>
      match Demo.digits_value 0 (whole ++ frac) with
      | Some n => Ok (PrimFloat.div (b64_of_N n) (b64_of_N (10 ^ N.of_nat (length frac))))
      | None => Raise (Exception (py "could not convert string to float"))
      end
  | (whole, None) => Demo.float_of_digits whole
  | _ => Raise (Exception (py "could not convert string to float"))
  end.

Definition int_of_digits (s : pystr) : result Z :=
  match s, Demo.digits_value 0 s with
  | _ :: _, Some n => Ok (Z.of_N n)
  | _, _ => Raise (Exception (py "invalid literal for int() with base 10"))
  end.

(** The collaborators of the studio, with a [float] that reads a
    fraction. *)
Definition booth : Externals :=
  {| world := nat;
     subprocess_run cmd files w := (Demo.tools cmd files, w);
     wav_record data duration := Ok data;
     recognize_google audio language w := (Demo.hears w audio language, S w);
     detect text w := (Demo.french text, w);
     float_of_str := float_of_decimal;
     float_percent := Demo.b64_percent;
     unicode_alnum := latin1_alnum;
     os_refuses p files w := None |}.

(** What ffmpeg prints while it cuts a file of two minutes. *)
Definition ffmpeg_lines : list pystr :=
  [py "Output #0, segment, to 'part_%03d.wav':";
   py "size=     256kB time=00:00:30.00 bitrate=  69.9kbits/s speed=60x  ";
   py "size=     512kB time=00:01:00.50 bitrate=  69.3kbits/s speed=60x  ";
   py "size=    1024kB time=00:02:30.00 bitrate=  55.9kbits/s speed=60x  "].

(** A process that prints these lines and exits with code 0, and the
    conversions of the runtime on short ASCII numbers. *)
Definition reader : Streaming booth :=
  {| popen cmd files w := (Ok (Some ffmpeg_lines, 0%Z), files, w);
     unicode_decimal c := false;
     int_of_str := int_of_digits;
     float_of_int z := Ok (PrimFloat.of_uint63 (Uint63.of_Z z)) |}.

(** A process without an error stream, which exits with code 3. *)
Definition deaf_reader : Streaming booth :=
  {| popen cmd files w := (Ok (None, 3%Z), files, w);
     unicode_decimal c := false;
     int_of_str := int_of_digits;
     float_of_int z := Ok (PrimFloat.of_uint63 (Uint63.of_Z z)) |}.

(** The two widgets, as entries of the trace. *)
Definition area (text : pystr) : M booth unit := emit (StCode text).
Definition bar (percent : Z) : M booth unit := emit (ProgressBar percent).

(** The trace in which the bar is never given more than 100. *)
Definition bar_in_range (ev : event) : Prop :=
  match ev with
  | ProgressBar percent => (percent ≤ 100)%Z
  | _ => True
  end.

Definition cut_cmd : list pystr := [py "ffmpeg"; py "-i"; py "talk.wav"].

End Booth.

(** * Properties *)

(** ** Strings *)

Section StripFacts.

Lemma lstrip_starts_clean l : starts_clean (lstrip l).
Proof.
  induction l as [|c l IH]; intros x; simpl; [done|].
  destruct (is_space c) eqn:Hc; [apply IH|].
  simpl. intros [= <-]. done.
Qed.

Lemma lstrip_fixed l : starts_clean l → lstrip l = l.
Proof.
  destruct l as [|c l]; [done|]. intros H. simpl.
  by rewrite (H c eq_refl).
Qed.

Lemma lstrip_app_clean l c r :
  is_space c = false → lstrip (l ++ c :: r) = lstrip l ++ c :: r.
Proof.
  intros Hc. induction l as [|x l IH]; simpl.
  - by rewrite Hc.
  - destruct (is_space x); [apply IH | done].
Qed.

Lemma lstrip_subseteq l : lstrip l ⊆ l.
Proof.
  induction l as [|c l IH]; simpl; [done|].
  destruct (is_space c); [|done].
  intros x Hx. right. by apply IH.
Qed.

Lemma rstrip_ends_clean l : ends_clean (rstrip l).
Proof.
  intros c. unfold rstrip. rewrite last_reverse. apply lstrip_starts_clean.
Qed.

Lemma rstrip_fixed l : ends_clean l → rstrip l = l.
Proof.
  intros H. unfold rstrip. rewrite lstrip_fixed; [apply reverse_involutive|].
  intros c. rewrite head_reverse. apply H.
Qed.

Lemma rstrip_starts_clean l : starts_clean l → starts_clean (rstrip l).
Proof.
  destruct l as [|c l]; [done|]. intros H.
  pose proof (H c eq_refl) as Hc.
  unfold rstrip. rewrite reverse_cons, (lstrip_app_clean _ c []) by done.
  rewrite reverse_app. simpl. intros x [= <-]. done.
Qed.

Lemma rstrip_subseteq l : rstrip l ⊆ l.
Proof.
  intros x. unfold rstrip. rewrite elem_of_reverse.
  intros Hx. apply lstrip_subseteq in Hx. by apply elem_of_reverse.
Qed.

Lemma strip_starts_clean l : starts_clean (strip l).
Proof. apply rstrip_starts_clean, lstrip_starts_clean. Qed.

Lemma strip_ends_clean l : ends_clean (strip l).
Proof. apply rstrip_ends_clean. Qed.

Lemma strip_fixed l : starts_clean l → ends_clean l → strip l = l.
Proof.
  intros H1 H2. unfold strip. rewrite (lstrip_fixed l) by done.
  by apply rstrip_fixed.
Qed.

Lemma strip_subseteq l : strip l ⊆ l.
Proof.
  intros x Hx. apply lstrip_subseteq. by apply rstrip_subseteq.
Qed.

End StripFacts.

(** ** The file-name sanitiser *)

Section SanitizerFacts.

Variable uni_alnum : codepoint → bool.

Local Abbreviation sanitize := (safe_filename uni_alnum).

Lemma in_class_not_space_safe c :
  in_class uni_alnum c = true → c ≠ 32 →
  ascii_safe c = true ∨ (128 ≤ c ∧ uni_alnum c = true).
Proof.
  unfold in_class, is_word, ascii_safe. intros H Hc.
  destruct (N.ltb_spec c 128) as [Hlt|Hge].
  - left.
    destruct (ascii_alnum c), (N.eqb_spec c 95), (N.eqb_spec c 46),
      (N.eqb_spec c 45), (N.eqb_spec c 32); simpl in *; try done; lia.
  - destruct (uni_alnum c); [by right|].
    left.
    destruct (ascii_alnum c), (N.eqb_spec c 95), (N.eqb_spec c 46),
      (N.eqb_spec c 45), (N.eqb_spec c 32); simpl in *; try done; lia.
Qed.

Lemma ascii_safe_in_class c : ascii_safe c = true → in_class uni_alnum c = true.
Proof.
  unfold in_class, is_word, ascii_safe, ascii_alnum.
  destruct (N.ltb_spec c 128), (N.leb_spec 48 c), (N.leb_spec c 57),
    (N.leb_spec 65 c), (N.leb_spec c 90), (N.leb_spec 97 c), (N.leb_spec c 122),
    (N.eqb_spec c 95), (N.eqb_spec c 46), (N.eqb_spec c 45), (N.eqb_spec c 32);
    simpl; intros; try done; try lia; by rewrite ?orb_true_r.
Qed.

Lemma ascii_safe_not_space c : ascii_safe c = true → is_space c = false ∧ c ≠ 32.
Proof.
  unfold ascii_safe, ascii_alnum, is_space.
  destruct (N.leb_spec 48 c), (N.leb_spec c 57),
    (N.leb_spec 65 c), (N.leb_spec c 90), (N.leb_spec 97 c), (N.leb_spec c 122),
    (N.eqb_spec c 95), (N.eqb_spec c 46), (N.eqb_spec c 45);
    simpl; intros; try done;
    (split; [|lia]);
    repeat match goal with
           | |- context [?a <=? ?b] => destruct (N.leb_spec a b); try lia
           | |- context [?a =? ?b] => destruct (N.eqb_spec a b); try lia
           end; done.
Qed.

Lemma safe_filename_chars s : Forall (sanitised_char uni_alnum s) (sanitize s).
Proof.
  apply Forall_forall. intros c Hc.
  unfold safe_filename, replace_char in Hc.
  apply list_elem_of_fmap in Hc as (c0 & -> & Hc0).
  apply strip_subseteq in Hc0.
  unfold re_sub_class in Hc0.
  apply list_elem_of_fmap in Hc0 as (c1 & -> & Hc1).
  destruct (in_class uni_alnum c1) eqn:Hcl.
  - destruct (N.eqb_spec c1 32) as [->|Hne]; [by left|].
    destruct (in_class_not_space_safe c1 Hcl Hne) as [?|[? ?]];
      [by left | by right].
  - by left.
Qed.

Lemma sanitised_char_kept s c :
  sanitised_char uni_alnum s c → in_class uni_alnum c = true ∧ c ≠ 32.
Proof.
  intros [Hc|(Hge & Hu & _)].
  - split; [by apply ascii_safe_in_class | by apply ascii_safe_not_space].
  - split; [|lia].
    unfold in_class, is_word. destruct (N.ltb_spec c 128); [lia|].
    by rewrite Hu.
Qed.

Lemma replace_space_clean (o : option N) :
  (∀ c, o = Some c → is_space c = false) →
  ∀ c, (λ c, if c =? 32 then 95 else c) <$> o = Some c → is_space c = false.
Proof.
  intros H c. destruct o as [c0|]; [|done]. simpl.
  specialize (H c0 eq_refl).
  destruct (N.eqb_spec c0 32) as [->|_]; [done|]. by intros [= <-].
Qed.

(** A sanitised name has no path separator, so it is one component of
    the path it is joined to. *)
Lemma safe_filename_no_slash s : 47 ∉ sanitize s.
Proof.
  intros Hin. pose proof (safe_filename_chars s) as Hch.
  eapply Forall_forall in Hch; [|exact Hin].
  destruct Hch as [Hc|[Hc _]]; [discriminate Hc | lia].
Qed.

Lemma safe_filename_stripped s :
  starts_clean (sanitize s) ∧ ends_clean (sanitize s).
Proof.
  unfold safe_filename, replace_char, starts_clean, ends_clean.
  rewrite fmap_last, head_lookup, list_lookup_fmap, <- head_lookup.
  split; apply replace_space_clean.
  - apply strip_starts_clean.
  - apply strip_ends_clean.
Qed.

Lemma safe_filename_idempotent s : sanitize (sanitize s) = sanitize s.
Proof.
  pose proof (safe_filename_chars s) as Hch.
  destruct (safe_filename_stripped s) as [Hh Hl].
  set (t := sanitize s) in *.
  assert (re_sub_class uni_alnum t = t) as Hsub.
  { unfold re_sub_class. rewrite <- (list_fmap_id t) at 2.
    apply Forall_fmap_ext. eapply Forall_impl; [exact Hch|].
    intros c Hc. apply sanitised_char_kept in Hc as [-> _]. done. }
  unfold safe_filename at 1. simpl. rewrite Hsub, (strip_fixed t Hh Hl).
  unfold replace_char. rewrite <- (list_fmap_id t) at 2.
  apply Forall_fmap_ext. eapply Forall_impl; [exact Hch|].
  intros c Hc. apply sanitised_char_kept in Hc as [_ Hne].
  by destruct (N.eqb_spec c 32).
Qed.

End SanitizerFacts.

(** ** The process runner and the media prober *)

Section RunnerFacts.

Variable X : Externals.
Variable cfg : Settings.

(** The state after the spawn of [cmd] was recorded in the trace. *)
Lemma call_subprocess_eq cmd (s : state X) :
  call_subprocess X cmd s =
    let '(r, fs', w') := subprocess_run X cmd (fs s) (ext s) in
    (r, set_ext w' (set_fs fs' (set_trace (trace s ++ [CallSubprocess cmd]) s))).
Proof. reflexivity. Qed.

Lemma run_cmd_capture_eq cmd (s : state X) :
  run_cmd_capture X cmd s =
    let '(r, fs', w') := subprocess_run X cmd (fs s) (ext s) in
    (Ok match r with
        | Ok completed =>
            (returncode completed, opt_or (stdout completed) [],
             opt_or (stderr completed) [])
        | Raise e => (1%Z, [], exn_str e)
        end,
     set_ext w' (set_fs fs' (set_trace (trace s ++ [CallSubprocess cmd]) s))).
Proof.
  unfold run_cmd_capture, try_except, bind. rewrite call_subprocess_eq.
  destruct (subprocess_run X cmd (fs s) (ext s)) as [[[cp|e] fs'] w']; reflexivity.
Qed.

Lemma run_cmd_capture_ok cmd (s : state X) :
  ∃ v s', run_cmd_capture X cmd s = (Ok v, s').
Proof.
  rewrite run_cmd_capture_eq.
  destruct (subprocess_run X cmd (fs s) (ext s)) as [[r fs'] w']. eauto.
Qed.

(** C4. The process runner never raises: whatever the spawn does, the
    result is a triple.  A command that completes gives its own return
    code (zero or not) and its captured streams; a spawn that raises
    (command not found, spawn failure) gives return code 1, an empty
    standard output and the message of the exception as standard
    error. *)
Theorem run_cmd_capture_total (cmd : list pystr) (s : state X) :
  (∃ rc out err s', run_cmd_capture X cmd s = (Ok (rc, out, err), s'))
  ∧ (∀ completed fs' w',
       subprocess_run X cmd (fs s) (ext s) = (Ok completed, fs', w') →
       (run_cmd_capture X cmd s).1 =
         Ok (returncode completed, opt_or (stdout completed) [],
             opt_or (stderr completed) []))
  ∧ (∀ e fs' w',
       subprocess_run X cmd (fs s) (ext s) = (Raise e, fs', w') →
       (run_cmd_capture X cmd s).1 = Ok (1%Z, [], exn_str e)).
Proof.
  rewrite run_cmd_capture_eq.
  destruct (subprocess_run X cmd (fs s) (ext s)) as [[r fs1] w1].
  split; [|split].
  - destruct r as [cp|e]; eauto 6.
  - by intros cp fs' w' [= -> _ _].
  - by intros e fs' w' [= -> _ _].
Qed.

(** C5. The media prober never raises, and its answer is 0.0 unless
    the probing tool is present, it completes with return code 0 and
    its output, stripped, parses as a number: an absent tool, a spawn
    that fails, a non-zero exit and unparsable output all give 0.0. *)
Theorem get_duration_seconds_fallback (file_path : path) (s : state X) :
  ∃ d s',
    get_duration_seconds X cfg file_path s = (Ok d, s')
    ∧ (d = 0%float
       ∨ (bin_ffprobe cfg = true
          ∧ ∃ completed fs' w',
              subprocess_run X (ffprobe_cmd file_path) (fs s) (ext s)
                = (Ok completed, fs', w')
              ∧ returncode completed = 0%Z
              ∧ float_of_str X (strip (opt_or (stdout completed) [])) = Ok d)).
Proof.
  unfold get_duration_seconds.
  destruct (bin_ffprobe cfg); simpl; [|by eexists _, _; split; [|left]].
  unfold bind. rewrite run_cmd_capture_eq.
  destruct (subprocess_run X (ffprobe_cmd file_path) (fs s) (ext s))
    as [[[cp|e] fs1] w1] eqn:Hrun; simpl.
  - destruct (Z.eqb_spec (returncode cp) 0) as [Hrc|Hrc].
    + unfold try_except.
      destruct (float_of_str X (strip (opt_or (stdout cp) []))) as [d|e] eqn:Hf.
      * eexists _, _. split; [done|]. right. split; [done|]. eauto 7.
      * eexists _, _. split; [done|]. by left.
    + eexists _, _. split; [done|]. by left.
  - eexists _, _. split; [done|]. by left.
Qed.

End RunnerFacts.

(** ** The transcription loop *)

#[local] Arguments py : simpl never.

(** The fields of the state a step ends in, one after the other. *)
Ltac finish_fields :=
  repeat split; cbn; rewrite <- ?app_assoc; cbn;
  first [ reflexivity | rewrite app_nil_r; reflexivity ].

(** Two states built from the same one by field updates are equal when
    their fields are. *)
Ltac state_eq :=
  match goal with
  | s : state _ |- _ =>
      destruct s; cbn; rewrite <- ?app_assoc; cbn; try reflexivity
  end.

Section LoopFacts.

Variable X : Externals.
Variable cfg : Settings.

Lemma milestones_app l1 l2 : milestones (l1 ++ l2) = milestones l1 ++ milestones l2.
Proof. apply omap_app. Qed.

Lemma milestones_attempts (audio : AudioData) tried :
  milestones (CallRecognize audio <$> tried) = Attempt <$> tried.
Proof. induction tried as [|h l IH]; [done|]. cbn. by f_equal. Qed.

(** The nested [try] blocks are the first success along the ordered
    hints. *)
Lemma recognize_with_fallbacks_spec audio lang (s : state X) :
  ∃ r',
    recognize_with_fallbacks X audio lang s =
      (r', set_ext (first_success X audio (fallback_hints lang) (ext s)).1.2
             (set_trace
                (trace s ++ (CallRecognize audio <$>
                   (first_success X audio (fallback_hints lang) (ext s)).2)) s))
    ∧ match (first_success X audio (fallback_hints lang) (ext s)).1.1 with
      | Some text => r' = Ok text
      | None => ∃ e, r' = Raise e
      end.
Proof.
  unfold recognize_with_fallbacks, try_except, call_recognize, bind, emit,
    modify, raise, fallback_hints, first_success.
  cbn.
  destruct (recognize_google X audio (Some lang) (ext s)) as [[t1|e1] w1]; cbn.
  { eexists. split; [|reflexivity]. f_equal. }
  destruct (recognize_google X audio None w1) as [[t2|e2] w2]; cbn.
  { eexists. split; [|reflexivity]. f_equal. state_eq. }
  destruct (recognize_google X audio (Some (py "ar")) w2) as [[t3|e3] w3]; cbn.
  { eexists. split; [|reflexivity]. f_equal. state_eq. }
  destruct (recognize_google X audio (Some (py "en")) w3) as [[t4|e4] w4]; cbn.
  { eexists. split; [|reflexivity]. f_equal. state_eq. }
  eexists. split; [|eauto]. f_equal. state_eq.
Qed.

#[local] Arguments first_success : simpl never.

(** One iteration of the loop is one segment of the specification. *)
Lemma transcribe_part_spec total lang idx part (s : state X) :
  total ≠ 0%nat →
  S (parts_processed s) = idx →
  ∃ s' evs,
    transcribe_part X cfg total lang idx part s = (Ok tt, s')
    ∧ fs s' = fs s
    ∧ ext s' = (transcribe_segment X lang (fs s) part (ext s)).2
    ∧ parts_processed s' = idx
    ∧ text_lines s' =
        text_lines s ++ successes [(transcribe_segment X lang (fs s) part (ext s)).1.1]
    ∧ failed_parts s' =
        failed_parts s ++ failures [(transcribe_segment X lang (fs s) part (ext s)).1.1]
    ∧ trace s' = trace s ++ evs
    ∧ milestones evs =
        segment_milestones (float_percent X) total idx part
          (transcribe_segment X lang (fs s) part (ext s)).1.1
          (transcribe_segment X lang (fs s) part (ext s)).1.2.
Proof.
  intros Htotal <-.
  unfold transcribe_part, transcribe_segment, bind, try_except, sr_record, log,
    emit, modify, get, percent_of, bind, ret, raise.
  rewrite bool_decide_eq_false_2 by done.
  destruct s as [fs0 w0 tr0 lg0 tl0 fp0 pp0].
  cbn.
  destruct (fs0 !! part) as [data|] eqn:Hdata; cbn.
  2:{ eexists _, _. split; [reflexivity|]. finish_fields. }
  destruct (wav_record X data None) as [audio|e] eqn:Hrec; cbn.
  2:{ eexists _, _. split; [reflexivity|]. finish_fields. }
  match goal with
  | |- context [recognize_with_fallbacks X audio lang ?s1] =>
      destruct (recognize_with_fallbacks_spec audio lang s1) as (r' & Heq & Hr);
      rewrite Heq; clear Heq; cbn in Hr |- *
  end.
  destruct (first_success X audio (fallback_hints lang) w0)
    as [[[text|] w'] tried]; cbn in Hr |- *.
  - subst r'. eexists _, _. split; [reflexivity|].
    repeat split; cbn; rewrite <- ?app_assoc; cbn;
      try first [ reflexivity | rewrite app_nil_r; reflexivity ].
    unfold milestones. cbn. rewrite omap_app. cbn.
    fold (milestones (CallRecognize audio <$> tried)).
    by rewrite milestones_attempts.
  - destruct Hr as [e ->]. eexists _, _. split; [reflexivity|].
    repeat split; cbn; rewrite <- ?app_assoc; cbn;
      try first [ reflexivity | rewrite app_nil_r; reflexivity ].
    unfold milestones. cbn. rewrite omap_app. cbn.
    fold (milestones (CallRecognize audio <$> tried)).
    by rewrite milestones_attempts.
Qed.

Lemma first_success_tried audio hints (w : world X) :
  (first_success X audio hints w).2 `prefix_of` hints
  ∧ match (first_success X audio hints w).1.1 with
    | Some _ => (first_success X audio hints w).2 ≠ []
    | None => (first_success X audio hints w).2 = hints
    end.
Proof.
  revert w. induction hints as [|h hints IH]; intros w; [done|].
  unfold first_success; fold (first_success X).
  destruct (recognize_google X audio h w) as [[text|e] w'].
  - cbn. split; [|done]. by apply prefix_cons, prefix_nil.
  - specialize (IH w').
    destruct (first_success X audio hints w') as [[r w''] tried].
    cbn in *. destruct IH as [Hp Hr]. split; [by apply prefix_cons|].
    destruct r; [done | by f_equal].
Qed.

Lemma transcribe_segment_chain lang files segment (w : world X) :
  chain_followed lang segment (transcribe_segment X lang files segment w).1.
Proof.
  unfold transcribe_segment, chain_followed.
  destruct (files !! segment) as [data|]; cbn;
    [|split; [apply prefix_nil | auto]].
  destruct (wav_record X data None) as [audio|e]; cbn;
    [|split; [apply prefix_nil | auto]].
  pose proof (first_success_tried audio (fallback_hints lang) w) as [Hp Hr].
  destruct (first_success X audio (fallback_hints lang) w) as [[[text|] w'] tried];
    cbn in *; auto.
Qed.

Lemma transcribeAll_cons lang files segment rest (w : world X) :
  transcribeAll X lang files (segment :: rest) w =
    ((transcribe_segment X lang files segment w).1
       :: (transcribeAll X lang files rest
             (transcribe_segment X lang files segment w).2).1,
     (transcribeAll X lang files rest
        (transcribe_segment X lang files segment w).2).2).
Proof.
  cbn. destruct (transcribe_segment X lang files segment w) as [[o tried] w'].
  cbn. by destruct (transcribeAll X lang files rest w').
Qed.

Lemma transcribeAll_chain lang files segments (w : world X) :
  Forall2 (chain_followed lang) segments (transcribeAll X lang files segments w).1.
Proof.
  revert w. induction segments as [|p rest IH]; intros w; [constructor|].
  rewrite transcribeAll_cons. cbn. constructor; [|apply IH].
  apply transcribe_segment_chain.
Qed.

Lemma loop_milestones_cons percent total idx segment rest r outs :
  loop_milestones percent total idx (segment :: rest) (r :: outs) =
    segment_milestones percent total idx segment r.1 r.2
    ++ loop_milestones percent total (S idx) rest outs.
Proof. by destruct r. Qed.

(** The [for] loop, from any iteration on. *)
Lemma transcribe_loop_spec total lang parts :
  total ≠ 0%nat →
  ∀ idx (s : state X),
    S (parts_processed s) = idx →
    ∃ s' evs,
      transcribe_loop X cfg total lang idx parts s = (Ok tt, s')
      ∧ parts_processed s' = (parts_processed s + length parts)%nat
      ∧ fs s' = fs s
      ∧ ext s' = (transcribeAll X lang (fs s) parts (ext s)).2
      ∧ text_lines s' =
          text_lines s ++ successes (transcribeAll X lang (fs s) parts (ext s)).1.*1
      ∧ failed_parts s' =
          failed_parts s ++ failures (transcribeAll X lang (fs s) parts (ext s)).1.*1
      ∧ trace s' = trace s ++ evs
      ∧ milestones evs =
          loop_milestones (float_percent X) total idx parts
            (transcribeAll X lang (fs s) parts (ext s)).1.
Proof.
  intros Htotal. induction parts as [|part rest IH]; intros idx s Hidx.
  - exists s, []. cbn. rewrite !app_nil_r, Nat.add_0_r. done.
  - destruct (transcribe_part_spec total lang idx part s Htotal Hidx)
      as (s1 & evs1 & Hrun & Hfs & Hext & Hpp & Htl & Hfp & Htr & Hms).
    destruct (IH (S idx) s1)
      as (s2 & evs2 & Hrun2 & Hpp2 & Hfs2 & Hext2 & Htl2 & Hfp2 & Htr2 & Hms2);
      [by rewrite Hpp|].
    exists s2, (evs1 ++ evs2).
    rewrite transcribeAll_cons. cbn [fst snd].
    rewrite loop_milestones_cons. cbn [fst snd].
    rewrite Hfs, Hext in *.
    split; [|split; [|split; [|split; [|split; [|split; [|split]]]]]].
    + cbn. unfold bind. by rewrite Hrun.
    + rewrite Hpp2, Hpp, <- Hidx. cbn. lia.
    + congruence.
    + done.
    + rewrite Htl2, Htl. rewrite fmap_cons. unfold successes.
      rewrite <- app_assoc. f_equal. symmetry. apply (omap_app _ [_]).
    + rewrite Hfp2, Hfp. rewrite fmap_cons. unfold failures.
      rewrite <- app_assoc. f_equal. symmetry. apply (omap_app _ [_]).
    + rewrite Htr2, Htr. by rewrite app_assoc.
    + rewrite milestones_app, Hms, Hms2. done.
Qed.

#[local] Arguments transcribeAll : simpl never.
#[local] Arguments loop_milestones : simpl never.
#[local] Arguments transcribe_loop : simpl never.

(** The whole stage: the locals are reset, then the loop runs. *)
Lemma transcribe_parts_spec split_files lang (s : state X) :
  ∃ s' evs,
    transcribe_parts X cfg split_files lang s = (Ok tt, s')
    ∧ parts_processed s' = length split_files
    ∧ fs s' = fs s
    ∧ ext s' = (transcribeAll X lang (fs s) split_files (ext s)).2
    ∧ text_lines s' = successes (transcribeAll X lang (fs s) split_files (ext s)).1.*1
    ∧ failed_parts s' = failures (transcribeAll X lang (fs s) split_files (ext s)).1.*1
    ∧ trace s' = trace s ++ evs
    ∧ milestones evs =
        loop_milestones (float_percent X) (length split_files) 1 split_files
          (transcribeAll X lang (fs s) split_files (ext s)).1.
Proof.
  unfold transcribe_parts, bind, emit, modify. cbn.
  destruct split_files as [|part rest].
  - eexists _, _. split; [reflexivity|]. destruct s. finish_fields.
  - set (s0 := set_parts_processed 0 _).
    destruct (transcribe_loop_spec (length (part :: rest)) lang (part :: rest)
                ltac:(done) 1%nat s0 eq_refl)
      as (s' & evs & Hrun & Hpp & Hfs & Hext & Htl & Hfp & Htr & Hms).
      exists s', ([StInfo MsgTranscribing; ProgressCreate 0] ++ evs).
    rewrite Hrun. split; [done|].
    subst s0. destruct s. cbn in *.
    rewrite <- !app_assoc in Htr. by repeat split.
Qed.

Lemma transcribeAll_length lang files segments (w : world X) :
  length (transcribeAll X lang files segments w).1 = length segments.
Proof.
  symmetry. eapply Forall2_length, transcribeAll_chain.
Qed.

Lemma progress_of_attempts tried : omap progress_of (Attempt <$> tried) = [].
Proof. induction tried as [|h l IH]; [done|]. cbn. exact IH. Qed.

Lemma without_attempts tried :
  filter (λ m, is_attempt m = false) (Attempt <$> tried) = [].
Proof.
  induction tried as [|h l IH]; [done|].
  rewrite fmap_cons, filter_cons_False; [exact IH | done].
Qed.

Lemma loop_milestones_progress percent total parts :
  ∀ idx outs,
    length outs = length parts →
    omap progress_of (loop_milestones percent total idx parts outs) =
      (λ i, percent i total) <$> seq idx (length parts).
Proof.
  induction parts as [|part rest IH]; intros idx [|[o tried] outs] Hlen;
    try done.
  rewrite loop_milestones_cons. unfold segment_milestones. cbn [fst snd].
  rewrite !omap_app, IH by (cbn in Hlen; lia).
  rewrite progress_of_attempts. by destruct o.
Qed.

Lemma loop_milestones_without_attempts percent total parts :
  ∀ idx outs,
    filter (λ m, is_attempt m = false) (loop_milestones percent total idx parts outs) =
      loop_milestones percent total idx parts ((λ r, (r.1, [])) <$> outs).
Proof.
  induction parts as [|part rest IH]; intros idx [|[o tried] outs]; try done.
  rewrite fmap_cons, !loop_milestones_cons. unfold segment_milestones.
  cbn [fst snd]. rewrite !filter_app, IH. f_equal.
  rewrite without_attempts.
  rewrite (filter_cons_True _ (Started _ _)) by done.
  cbn. f_equal. by destruct o.
Qed.

Lemma first_success_recognised audio hints (w : world X) text :
  (first_success X audio hints w).1.1 = Some text →
  ∃ hint w0 w1, recognize_google X audio hint w0 = (Ok text, w1).
Proof.
  revert w. induction hints as [|h hints IH]; intros w; [done|].
  unfold first_success; fold (first_success X).
  destruct (recognize_google X audio h w) as [[t|e] w'] eqn:Hrec.
  - cbn. intros [= ->]. eauto.
  - specialize (IH w').
    destruct (first_success X audio hints w') as [[r w''] tried]. cbn in *. done.
Qed.

Lemma transcribe_segment_recognised lang files segment (w : world X) text :
  (transcribe_segment X lang files segment w).1.1 = Transcribed text →
  ∃ audio hint w0 w1, recognize_google X audio hint w0 = (Ok text, w1).
Proof.
  unfold transcribe_segment.
  destruct (files !! segment) as [data|]; [|done].
  destruct (wav_record X data None) as [audio|e]; [|done].
  pose proof (first_success_recognised audio (fallback_hints lang) w) as H.
  destruct (first_success X audio (fallback_hints lang) w) as [[[t|] w'] tried];
    cbn in *; [|done].
  intros [= ->]. destruct (H text eq_refl) as (h & w0 & w1 & Hr). eauto.
Qed.

(** C1. The transcription loop never aborts and gives one outcome per
    segment, in the order of the segments: the texts and the names of
    the failed segments it leaves are those of [transcribeAll], which
    tries, for each segment, the detected language, then no hint, then
    "ar", then "en", and stops at the first success; a segment is
    recorded as failed, under its own name, when it cannot be read or
    when all four attempts fail, and the loop goes on to the next
    segment. *)
Theorem transcription_loop_outcomes
    (split_files : list path) (detected_lang : pystr) (s : state X) :
  let outs := (transcribeAll X detected_lang (fs s) split_files (ext s)).1 in
  ∃ s' evs,
    transcribe_parts X cfg split_files detected_lang s = (Ok tt, s')
    ∧ trace s' = trace s ++ evs
    ∧ length outs = length split_files
    ∧ Forall2 (chain_followed detected_lang) split_files outs
    ∧ text_lines s' = successes outs.*1
    ∧ failed_parts s' = failures outs.*1
    ∧ milestones evs =
        loop_milestones (float_percent X) (length split_files) 1 split_files outs.
Proof.
  intros outs.
  destruct (transcribe_parts_spec split_files detected_lang s)
    as (s' & evs & Hrun & _ & _ & _ & Htl & Hfp & Htr & Hms).
    exists s', evs. repeat split; try done.
  - apply transcribeAll_length.
  - apply transcribeAll_chain.
Qed.

(** C8. In a run of the loop over n segments the progress bar is
    updated exactly n times; the i-th update is computed from the
    processed count i, for i = 1, ..., n; and each update comes after
    the end (success or failure) of its segment and before the start of
    the next one. *)
Theorem progress_once_per_segment
    (split_files : list path) (detected_lang : pystr) (s : state X) :
  let n := length split_files in
  let outs := (transcribeAll X detected_lang (fs s) split_files (ext s)).1 in
  ∃ s' evs,
    transcribe_parts X cfg split_files detected_lang s = (Ok tt, s')
    ∧ parts_processed s' = n
    ∧ trace s' = trace s ++ evs
    ∧ omap progress_of (milestones evs) = (λ i, float_percent X i n) <$> seq 1 n
    ∧ filter (λ m, is_attempt m = false) (milestones evs) =
        loop_milestones (float_percent X) n 1 split_files ((λ r, (r.1, [])) <$> outs).
Proof.
  intros n outs.
  destruct (transcribe_parts_spec split_files detected_lang s)
    as (s' & evs & Hrun & Hpp & _ & _ & _ & _ & Htr & Hms).
    exists s', evs. rewrite Hms. repeat split; try done.
  - apply loop_milestones_progress, transcribeAll_length.
  - apply loop_milestones_without_attempts.
Qed.

(** C9 (amended). Every segment gives either a success carrying the
    text the recogniser returned, or a failure carrying the name of the
    segment; the loop does not look at the text, so the recorded texts
    are non-empty provided the recogniser never returns an empty
    text. *)
Theorem recorded_texts_nonempty
    (split_files : list path) (detected_lang : pystr) (s : state X) :
  (∀ audio hint w text w',
     recognize_google X audio hint w = (Ok text, w') → text ≠ []) →
  let outs := (transcribeAll X detected_lang (fs s) split_files (ext s)).1 in
  ∃ s',
    transcribe_parts X cfg split_files detected_lang s = (Ok tt, s')
    ∧ Forall2 (λ part o, match o with
                         | Transcribed text => text ≠ []
                         | Failed n => n = name part
                         end) split_files outs.*1
    ∧ text_lines s' = successes outs.*1
    ∧ failed_parts s' = failures outs.*1
    ∧ Forall (λ text, text ≠ []) (text_lines s').
Proof.
  intros Hne outs.
  destruct (transcribe_parts_spec split_files detected_lang s)
    as (s' & evs & Hrun & _ & _ & _ & Htl & Hfp & _ & _).
    exists s'.
  assert (Forall2 (λ part o, match o with
                             | Transcribed text => text ≠ []
                             | Failed n => n = name part
                             end) split_files outs.*1) as Hall.
  { subst outs. generalize (ext s). clear Hrun Htl Hfp.
    induction split_files as [|part rest IH]; intros w; [constructor|].
    rewrite transcribeAll_cons. cbn [fst snd fmap list_fmap].
    constructor; [|apply IH].
    pose proof (transcribe_segment_chain detected_lang (fs s) part w) as [_ Hc].
    pose proof (transcribe_segment_recognised detected_lang (fs s) part w) as Hr.
    destruct (transcribe_segment X detected_lang (fs s) part w).1.1 as [text|n].
    - destruct (Hr text eq_refl) as (a & h & w0 & w1 & Hrec). eauto.
    - tauto. }
  repeat split; try done.
  rewrite Htl. subst outs. revert Hall.
  match goal with |- context [successes ?l] => generalize l end. clear.
  intros os Hall. induction Hall as [|part o ps os Ho _ IH]; [constructor|].
  destruct o; cbn; [constructor|]; done.
Qed.

End LoopFacts.

(** ** Language detection *)

Section DetectFacts.

Variable X : Externals.
Variable cfg : Settings.

#[local] Arguments first_success : simpl never.
#[local] Arguments strip : simpl never.
#[local] Arguments truthy : simpl never.

Lemma sample_attempts_spec sample (s : state X) :
  ∃ evs,
    try_except (call_recognize X sample None)
      (λ _, try_except (call_recognize X sample (Some (py "ar"))) (λ _, ret [])) s =
      (Ok (default [] (first_success X sample [None; Some (py "ar")] (ext s)).1.1),
       set_ext (first_success X sample [None; Some (py "ar")] (ext s)).1.2
         (set_trace (trace s ++ evs) s))
    ∧ detect_calls evs = [].
Proof.
  unfold try_except, call_recognize, bind, emit, modify, ret, first_success.
  cbn.
  destruct (recognize_google X sample None (ext s)) as [[t1|e1] w1]; cbn.
  { eexists [_]. split; [reflexivity | done]. }
  destruct (recognize_google X sample (Some (py "ar")) w1) as [[t2|e2] w2]; cbn.
  { eexists [_; _]. split; [f_equal; state_eq | done]. }
  eexists [_; _]. split; [f_equal; state_eq | done].
Qed.

Lemma detect_language_spec dst_wav (s : state X) :
  ∃ s' evs,
    detect_language X cfg dst_wav s =
      (Ok (detectLanguage X cfg (fs s) dst_wav (ext s)).1, s')
    ∧ fs s' = fs s
    ∧ trace s' = trace s ++ evs
    ∧ detect_calls evs = (detectLanguage X cfg (fs s) dst_wav (ext s)).2.
Proof.
  unfold detect_language, detectLanguage, sample_text.
  unfold bind at 1 2. unfold emit at 1, modify at 1, log at 1.
  unfold bind at 1 2. unfold emit at 1, modify at 1, get at 1.
  destruct s as [fs0 w0 tr0 lg0 tl0 fp0 pp0]. cbn.
  unfold try_except at 1. unfold bind at 1. unfold sr_record at 1.
  unfold bind at 1, emit at 1, modify at 1. cbn.
  destruct (fs0 !! dst_wav) as [data|]; cbn.
  2:{ unfold bind, log, emit, modify, get, ret. cbn.
      eexists _, _. split; [reflexivity|]. finish_fields. }
  destruct (wav_record X data (Some (sample_seconds cfg))) as [sample|e]; cbn.
  2:{ unfold bind, log, emit, modify, get, ret. cbn.
      eexists _, _. split; [reflexivity|]. finish_fields. }
  unfold bind at 1.
  match goal with
  | |- context [try_except (call_recognize X sample None) ?h ?s1] =>
      destruct (sample_attempts_spec sample s1) as (evs1 & Heq & Hd1);
      rewrite Heq; clear Heq; cbn
  end.
  destruct (first_success X sample [None; Some (py "ar")] w0) as [[r w1] tried]. cbn.
  destruct (truthy (strip (default [] r))) eqn:Htext.
  2:{ unfold bind, log, emit, modify, get, ret. cbn.
      eexists _, _. split; [reflexivity|].
      repeat split; cbn; rewrite <- ?app_assoc; cbn; try reflexivity.
      unfold detect_calls in *. cbn. by rewrite omap_app, Hd1. }
  unfold try_except, bind, call_detect, log, emit, modify, get, ret, bind. cbn.
  destruct (detect X (default [] r) w1) as [[code|e] w2]; cbn.
  - eexists _, _. split; [reflexivity|].
    repeat split; cbn; rewrite <- ?app_assoc; cbn; try reflexivity.
    unfold detect_calls in *. cbn. by rewrite omap_app, Hd1.
  - eexists _, _. split; [reflexivity|].
    repeat split; cbn; rewrite <- ?app_assoc; cbn; try reflexivity.
    unfold detect_calls in *. cbn. by rewrite omap_app, Hd1.
Qed.

Lemma truthy_false (text : pystr) : truthy text = false ↔ text = [].
Proof.
  unfold truthy. destruct (bool_decide_reflect (text = [])); cbn; split; done.
Qed.

(** C2. Language detection never raises.  Its answer is that of
    [detectLanguage]: the code the identification capability returns
    for a non-blank sample text, and "en" on every other path (the
    sample cannot be read, both recognition attempts fail, the sample
    text is empty or white space, the identification fails).  When the
    sample text is empty or white space the answer is "en" and the
    identification capability is not called. *)
Theorem detect_language_never_fails (dst_wav : path) (s : state X) :
  ∃ lang s' evs,
    detect_language X cfg dst_wav s = (Ok lang, s')
    ∧ trace s' = trace s ++ evs
    ∧ lang = (detectLanguage X cfg (fs s) dst_wav (ext s)).1
    ∧ detect_calls evs = (detectLanguage X cfg (fs s) dst_wav (ext s)).2
    ∧ (lang = py "en"
       ∨ ∃ text w w', detect_calls evs = [text] ∧ detect X text w = (Ok lang, w'))
    ∧ match sample_text X cfg (fs s) dst_wav (ext s) with
      | Some (text, _) => strip text = [] → lang = py "en" ∧ detect_calls evs = []
      | None => lang = py "en" ∧ detect_calls evs = []
      end.
Proof.
  destruct (detect_language_spec dst_wav s) as (s' & evs & Hrun & _ & Htr & Hcalls).
  eexists _, s', evs. split; [exact Hrun|]. split; [exact Htr|].
  split; [reflexivity|]. split; [exact Hcalls|].
  rewrite Hcalls. unfold detectLanguage.
  destruct (sample_text X cfg (fs s) dst_wav (ext s)) as [[text w1]|]; cbn;
    [|by split; [left|]].
  destruct (truthy (strip text)) eqn:Htext; cbn.
  - split.
    + destruct (detect X text w1) as [[code|e] w2] eqn:Hdet; cbn; [|by left].
      right. eauto.
    + intros Hblank. apply truthy_false in Hblank. congruence.
  - split; [by left | done].
Qed.

End DetectFacts.

(** ** The aggregator *)

Section AggregatorFacts.

Variable X : Externals.
Variable cfg : Settings.


Lemma utf8_encodable_line (line : pystr) :
  utf8_encodable (line ++ [10; 10]) = utf8_encodable line.
Proof.
  unfold utf8_encodable. rewrite forallb_app. cbn. by rewrite andb_true_r.
Qed.




(** The writing of the lines: it stops at the first line that cannot
    be encoded, with the lines before it in the file. *)
Lemma write_lines_spec final_txt lines :
  ∀ (s : state X) before,
    fs s !! final_txt = Some before →
    write_lines X final_txt lines s =
      (if forallb utf8_encodable lines then Ok tt
       else Raise (Exception (py "surrogates not allowed")),
       set_fs (<[final_txt :=
                   before ++ mjoin ((λ line, line ++ [10; 10]) <$> encodable_prefix lines)]>
                 (fs s)) s).
Proof.
  induction lines as [|line rest IH]; intros s before Hb.
  - cbn. unfold ret. f_equal. rewrite app_nil_r, insert_id by done. by destruct s.
  - cbn [write_lines forallb encodable_prefix]. unfold bind, file_write.
    rewrite utf8_encodable_line. destruct (utf8_encodable line); cbn [andb].
    + rewrite (IH _ (before ++ line ++ [10; 10])).
      * destruct s; cbn in *. rewrite Hb. cbn.
        by rewrite insert_insert_eq, <- !app_assoc.
      * destruct s; cbn in *. by rewrite lookup_insert_eq, Hb.
    + cbn. f_equal. rewrite app_nil_r, insert_id by done. by destruct s.
Qed.

Lemma write_failed_spec failed :
  ∀ s : state X,
    write_failed X failed s =
      (Ok tt, set_trace (trace s ++ ((λ p, StWrite (MsgFailedItem p)) <$> failed)) s).
Proof.
  induction failed as [|p rest IH]; intros s.
  - cbn. unfold ret. f_equal. rewrite app_nil_r. by destruct s.
  - cbn [write_failed]. unfold bind, emit, modify. rewrite IH.
    f_equal. destruct s; cbn. by rewrite <- app_assoc.
Qed.

Lemma failed_items_writes failed :
  failed_items ((λ p, StWrite (MsgFailedItem p)) <$> failed) = failed.
Proof. induction failed as [|p rest IH]; [done|]. cbn. by f_equal. Qed.

(** The aggregator, whatever the texts and the operating system are. *)
Lemma assemble_spec (title_base : pystr) (s : state X) :
  let final_txt := child (cwd cfg) (title_base ++ py ".txt") in
  let written := encodable_prefix (text_lines s) in
  let body := mjoin ((λ text, text ++ [10; 10]) <$> written) in
  ∃ s' evs,
    assemble X cfg title_base s =
      (match os_refuses X final_txt (fs s) (ext s) with
       | Some e => Raise e
       | None =>
           if forallb utf8_encodable (text_lines s) then Ok final_txt
           else Raise (Exception (py "surrogates not allowed"))
       end, s')
    ∧ fs s' = match os_refuses X final_txt (fs s) (ext s) with
              | Some _ => fs s
              | None => <[final_txt := body]> (fs s)
              end
    ∧ trace s' = trace s ++ evs
    ∧ failed_items evs =
        match os_refuses X final_txt (fs s) (ext s) with
        | Some _ => []
        | None => if forallb utf8_encodable (text_lines s) then failed_parts s else []
        end
    ∧ text_lines s' = text_lines s
    ∧ Forall (λ ev, match ev with
                    | DownloadText _ _ | DownloadAudio _ _ | CallSubprocess _ => False
                    | _ => True
                    end) evs.
Proof.
  intros final_txt written body.
  unfold assemble, save_final_text. fold final_txt.
  unfold bind at 1 2. unfold open_w at 1.
  destruct (os_refuses X final_txt (fs s) (ext s)) as [e|] eqn:Hos.
  { exists s, []. rewrite app_nil_r. by repeat split. }
  unfold bind at 1. unfold get at 1.
  unfold bind at 1.
  rewrite (write_lines_spec final_txt _ _ []);
    [|by destruct s; cbn; rewrite lookup_insert_eq].
  unfold bind at 1. unfold emit at 1, modify at 1.
  unfold bind at 1, log, bind, emit, modify, get, ret.
  destruct s as [fs0 w0 tr0 lg0 tl0 fp0 pp0]. cbn.
  destruct (forallb utf8_encodable tl0); cbn.
  2:{ eexists _, []. split; [reflexivity|]. cbn.
      rewrite insert_insert_eq, app_nil_r. by repeat split. }
  unfold report_failures, bind, get. cbn.
  destruct fp0 as [|p rest]; cbn.
  - unfold emit, modify. cbn. eexists _, _. split; [reflexivity|]. cbn.
    rewrite insert_insert_eq.
    split; [reflexivity|]. split; [rewrite <- ?app_assoc; reflexivity|].
    split; [reflexivity|]. split; [reflexivity|]. by repeat constructor.
  - unfold emit, modify, bind. cbn. rewrite write_failed_spec. cbn.
    eexists _, _. split; [reflexivity|]. cbn.
    rewrite insert_insert_eq.
    split; [reflexivity|]. split; [rewrite <- ?app_assoc; reflexivity|].
    split; [unfold failed_items; cbn; f_equal; apply failed_items_writes|].
    split; [reflexivity|].
    repeat (apply Forall_cons; split; [done|]).
    apply Forall_fmap, Forall_true. done.
Qed.


End AggregatorFacts.

(** ** The order of paths and the listing of a directory *)

Section PathFacts.

Lemma N_compare_trans (x y z : N) c :
  (x ?= y) = c → (y ?= z) = c → (x ?= z) = c.
Proof.
  destruct c; intros H1 H2.
  - apply N.compare_eq_iff in H1, H2. subst. apply N.compare_refl.
  - rewrite N.compare_lt_iff in *. lia.
  - rewrite N.compare_gt_iff in *. lia.
Qed.

Lemma str_compare_eq (a b : pystr) : str_compare a b = Eq ↔ a = b.
Proof. apply list_compare_refl, N.compare_eq_iff. Qed.

Lemma str_compare_antisym (a b : pystr) :
  str_compare b a = CompOpp (str_compare a b).
Proof.
  apply list_compare_antisym; [apply N.compare_eq_iff | apply N.compare_antisym].
Qed.

Lemma str_compare_trans (a b c : pystr) r :
  str_compare a b = r → str_compare b c = r → str_compare a c = r.
Proof.
  apply list_compare_trans;
    [apply N.compare_eq_iff | apply N_compare_trans | apply N.compare_antisym].
Qed.

Lemma path_compare_eq (p q : path) : path_compare p q = Eq ↔ p = q.
Proof. apply list_compare_refl, str_compare_eq. Qed.

Lemma path_compare_antisym (p q : path) :
  path_compare q p = CompOpp (path_compare p q).
Proof.
  apply list_compare_antisym; [apply str_compare_eq | apply str_compare_antisym].
Qed.

Lemma path_compare_trans (p q r : path) c :
  path_compare p q = c → path_compare q r = c → path_compare p r = c.
Proof.
  apply list_compare_trans;
    [apply str_compare_eq | apply str_compare_trans | apply str_compare_antisym].
Qed.

#[local] Instance path_le_total : Total path_le.
Proof.
  intros p q. unfold path_le. rewrite (path_compare_antisym p q).
  destruct (path_compare p q); cbn; auto.
Qed.

#[local] Instance path_le_trans : Transitive path_le.
Proof.
  intros p q r. unfold path_le. intros Hpq Hqr.
  destruct (path_compare p q) eqn:E1; [| |done].
  - apply path_compare_eq in E1. by subst.
  - destruct (path_compare q r) eqn:E2; [| |done].
    + apply path_compare_eq in E2. subst. by rewrite E1.
    + by rewrite (path_compare_trans p q r Lt).
Qed.






End PathFacts.

(** ** Audio acquisition *)

Section AcquisitionFacts.

Variable X : Externals.
Variable cfg : Settings.

#[local] Arguments sorted : simpl never.
#[local] Arguments glob_wav : simpl never.
#[local] Arguments safe_filename : simpl never.
#[local] Arguments stem : simpl never.
#[local] Arguments truthy : simpl never.
#[local] Arguments yt_cmd : simpl never.
#[local] Arguments child : simpl never.
#[local] Arguments name : simpl never.

Lemma child_inj (p q : path) (n m : pystr) : child p n = child q m → p = q ∧ n = m.
Proof. unfold child. intros H. by apply app_inj_tail in H. Qed.



End AcquisitionFacts.

(** ** A run without segments *)

Section EmptySplitFacts.

Variable X : Externals.
Variable cfg : Settings.

#[local] Arguments child : simpl never.
#[local] Arguments name : simpl never.

(** C10 (amended). When the list of segment files is empty the loop
    body is never entered and, provided the text file can be created,
    the rest of the run completes: the text file is written with an
    empty body, no part is recorded as failed, the message that all
    parts succeeded is shown, and the only update of the progress bar is
    the final one, to 100.  The percentage, whose division by the
    number of parts would raise for zero parts, is not computed. *)
Theorem empty_split_completes
    (detected_lang title_base : pystr) (dst_wav : path) (s : state X) :
  is_Some (fs s !! dst_wav) →
  let final_txt := child (cwd cfg) (title_base ++ py ".txt") in
  os_refuses X final_txt (fs s) (ext s) = None →
  ∃ s' evs,
    (transcribe_parts X cfg [] detected_lang ;;
     final_txt <- assemble X cfg title_base ;;
     offer_downloads X cfg final_txt dst_wav)%script s = (Ok tt, s')
    ∧ text_lines s' = []
    ∧ failed_parts s' = []
    ∧ parts_processed s' = 0%nat
    ∧ fs s' = <[final_txt := []]> (fs s)
    ∧ trace s' = trace s ++ evs
    ∧ StSuccess MsgAllPartsOk ∈ evs
    ∧ milestones evs = [Progress 100]
    ∧ percent_of X 0 0 s = (Raise (Exception (py "division by zero")), s).
Proof.
  intros [data Hdata] final_txt Hos.
  unfold transcribe_parts, assemble, save_final_text, report_failures,
    offer_downloads, read_file, open_w, bind, log, emit, modify, get, ret, bind.
  fold final_txt.
  destruct s as [fs0 w0 tr0 lg0 tl0 fp0 pp0]. cbn in *.
  rewrite Hos. cbn.
  rewrite lookup_insert_eq. cbn.
  assert (∃ d, <[final_txt:=[]]> fs0 !! dst_wav = Some d) as [d Hd].
  { rewrite lookup_insert. case_decide; eauto. }
  rewrite Hd. cbn.
  destruct (auto_remove_tmp cfg); cbn.
  all: eexists _, _; split; [reflexivity|]; cbn.
  all: split; [done|]; split; [done|]; split; [done|].
  all: split; [reflexivity|].
  all: split; [rewrite <- ?app_assoc; reflexivity|].
  all: split; [set_solver|].
  all: split; [reflexivity|].
  all: unfold percent_of; reflexivity.
Qed.

End EmptySplitFacts.

(** ** The run, stage by stage *)

Section StageFacts.

Variable X : Externals.
Variable cfg : Settings.

(** When the acquisition and the split succeed, the run is its three
    first stages followed by the loop, the aggregation and the
    downloads, and the scratch directory is removed at the end. *)
Lemma process_url_to_text_stages url cookie_file prefix (s s1 s2 s3 : state X)
    dst_wav title_base detected_lang split_files :
  truthy url = true →
  bin_yt_dlp cfg = true →
  bin_ffmpeg cfg = true →
  libraries_importable cfg = true →
  download_audio X cfg (child (base_tmp cfg) (py "download")) url cookie_file prefix s
    = (Ok (Some (dst_wav, title_base)), s1) →
  detect_language X cfg dst_wav s1 = (Ok detected_lang, s2) →
  split_audio X cfg dst_wav (child (base_tmp cfg) (py "split")) s2
    = (Ok (Some split_files), s3) →
  process_url_to_text X cfg url cookie_file prefix s =
    with_temporary_directory X cfg
      (transcribe_parts X cfg split_files detected_lang ;;
       final_txt <- assemble X cfg title_base ;;
       offer_downloads X cfg final_txt dst_wav)%script s3.
Proof.
  intros Hurl Hyt Hffmpeg Hlibs Hdl Hdet Hsplit.
  unfold process_url_to_text. rewrite Hurl, Hyt, Hffmpeg, Hlibs. cbn [negb].
  unfold with_temporary_directory. unfold bind at 1. rewrite Hdl.
  unfold bind at 1. rewrite Hdet. unfold bind at 1. rewrite Hsplit.
  reflexivity.
Qed.

End StageFacts.

(** ** The sanitiser, in sum *)

(** C3 (amended). Every character of a sanitised name is one of
    [[A-Za-z0-9_.-]] or an alphanumeric character of the input above
    ASCII, which the Unicode-aware [\w] keeps (so an ASCII input gives
    only characters of [[A-Za-z0-9_.-]]); and sanitising is idempotent.
    The result is a function of the input string and of the Unicode
    database alone. *)
Theorem safe_filename_sanitises (uni_alnum : codepoint → bool) (s : pystr) :
  Forall (sanitised_char uni_alnum s) (safe_filename uni_alnum s)
  ∧ safe_filename uni_alnum (safe_filename uni_alnum s) = safe_filename uni_alnum s.
Proof.
  split; [apply safe_filename_chars | apply safe_filename_idempotent].
Qed.

(** C3, as stated, fails: the name "été" (U+00E9, t, U+00E9) is kept as
    it is, and U+00E9 is not one of [[A-Za-z0-9_.-]]. *)
Lemma safe_filename_keeps_letters_above_ascii :
  ¬ Forall (λ c, ascii_safe c = true) (safe_filename latin1_alnum [233; 116; 233]).
Proof.
  intros H. apply Forall_cons in H as [H _]. discriminate H.
Qed.

(** ** Concrete runs *)

Section Runs.

Import Demo.

Example safe_filename_spec_sample :
  safe_filename latin1_alnum (py "My Video! (2020).mp4") = py "My_Video___2020_.mp4".
Proof. reflexivity. Qed.

Example safe_filename_strips_then_replaces :
  safe_filename latin1_alnum (py "  a  b ") = py "a__b".
Proof. reflexivity. Qed.

(** White space other than the space is not a word character, so it
    becomes an underscore before [strip] sees it; letters, superscript
    digits and fractions of Latin-1 are word characters. *)
Example safe_filename_on_latin1 :
  safe_filename latin1_alnum [32; 9; 32; 233; 116; 233; 10] = [95; 95; 233; 116; 233; 95]
  ∧ safe_filename latin1_alnum [28; 32; 97; 46; 98; 45; 99; 95; 100; 32; 31]
    = [95; 95; 97; 46; 98; 45; 99; 95; 100; 95; 95]
  ∧ safe_filename latin1_alnum [160; 120; 160] = [95; 120; 95]
  ∧ safe_filename latin1_alnum (py "a/b\c:d") = py "a_b_c_d"
  ∧ safe_filename latin1_alnum (py "  ") = []
  ∧ safe_filename latin1_alnum [189; 32; 99; 117; 112; 32; 178]
    = [189; 95; 99; 117; 112; 95; 178]
  ∧ safe_filename latin1_alnum [215; 247] = [95; 95]
  ∧ safe_filename latin1_alnum [133; 108; 101; 97; 100] = [95; 108; 101; 97; 100]
  ∧ safe_filename latin1_alnum [29; 109; 19; 44; 222; 214; 35; 123; 46; 217]
    = [95; 109; 95; 95; 222; 214; 95; 95; 46; 217].
Proof. repeat split. Qed.

Example stem_examples :
  stem [py ".wav"] = py ".wav" ∧ stem [py "a.b.wav"] = py "a.b"
  ∧ stem [py "..wav"] = py ".".
Proof. done. Qed.

Example percent_is_binary64 : b64_percent 29 100 = 28%Z ∧ b64_percent 3 3 = 100%Z.
Proof. split; vm_compute; reflexivity. Qed.

(** The scenario of the specification: three segments, the second of
    which fails all four attempts. *)
Example run_with_one_failed_segment :
  let '(r, s) := process_url_to_text studio settings talk_url [] [] (start studio 0%nat ∅) in
  r = Ok tt
  ∧ map_to_list (fs s) =
      [(child home (py "My_Talk___2020_-x1.txt"),
        py "words of 1" ++ [10; 10] ++ py "words of 3" ++ [10; 10]);
       (child home (py "My_Talk___2020_-x1.wav"), [1; 2; 3])]
  ∧ text_lines s = [py "words of 1"; py "words of 3"]
  ∧ failed_parts s = [py "part_001.wav"]
  ∧ detect_calls (trace s) = [py "words of 1"]
  ∧ milestones (trace s) =
      [Attempt None;
       Started 1 (py "part_000.wav"); Attempt (Some (py "fr")); Succeeded; Progress 33;
       Started 2 (py "part_001.wav"); Attempt (Some (py "fr")); Attempt None;
       Attempt (Some (py "ar")); Attempt (Some (py "en"));
       GaveUp (py "part_001.wav"); Progress 66;
       Started 3 (py "part_002.wav"); Attempt (Some (py "fr")); Succeeded; Progress 100;
       Progress 100].
Proof. vm_compute. repeat split. Qed.

Example duration_of_the_talk :
  (get_duration_seconds studio settings (child home (py "talk.wav"))
     (start studio 0%nat ∅)).1 = Ok 650%float.
Proof. vm_compute. reflexivity. Qed.

(** A download that exits with code 1 ends the run: nothing else is
    spawned, no audio is read and no file is written. *)
Example run_with_failed_download :
  let '(r, s) := process_url_to_text offline_studio settings talk_url [] []
                   (start offline_studio 0%nat ∅) in
  r = Ok tt
  ∧ fs s = ∅
  ∧ spawned (trace s) = [yt_cmd (child scratch (py "download")) talk_url []]
  ∧ milestones (trace s) = [].
Proof. vm_compute. done. Qed.

(** A split that leaves no part: the run completes, the text file is
    empty, all parts are said to have succeeded, and the progress bar is
    only set to 100 at the end. *)
Example run_without_parts :
  let '(r, s) := process_url_to_text studio_without_parts settings talk_url [] []
                   (start studio_without_parts 0%nat ∅) in
  r = Ok tt
  ∧ fs s !! child home (py "My_Talk___2020_-x1.txt") = Some []
  ∧ fs s !! child home (py "My_Talk___2020_-x1.wav") = Some [1; 2; 3]
  ∧ text_lines s = []
  ∧ failed_parts s = []
  ∧ StSuccess MsgAllPartsOk ∈ trace s
  ∧ milestones (trace s) = [Attempt None; Progress 100].
Proof. vm_compute. repeat split. set_solver. Qed.

(** Without the download tool the run stops at its first check. *)
Example run_without_download_tool :
  process_url_to_text studio without_yt_dlp talk_url [] [] (start studio 0%nat ∅) =
    (Ok tt, set_trace [StError MsgNoYtDlp] (start studio 0%nat ∅)).
Proof. reflexivity. Qed.

(** An empty URL is refused before anything else. *)
Example run_without_url :
  process_url_to_text studio settings [] [] [] (start studio 0%nat ∅) =
    (Ok tt, set_trace [StError MsgNoUrl] (start studio 0%nat ∅)).
Proof. reflexivity. Qed.

(** With a recogniser that answers with empty transcripts, the sample
    text is empty: the language is "en" and the identifier is not
    called. *)
Example blank_sample_falls_back :
  let '(r, s) := detect_language silent_studio settings (child home (py "talk.wav"))
                   (start silent_studio 0%nat split_files_on_disk) in
  r = Ok (py "en") ∧ detect_calls (trace s) = [].
Proof. vm_compute. done. Qed.

(** C9, as stated, fails: with a recogniser that answers with an empty
    transcript the segment is recorded as a success whose text is
    empty, and the text file gets an empty paragraph. *)
Lemma empty_text_is_recorded :
  let '(r, s) :=
    (transcribe_parts silent_studio settings [part (py "part_000.wav")] (py "en") ;;
     assemble silent_studio settings (py "talk"))%script
      (start silent_studio 0%nat split_files_on_disk) in
  r = Ok (child home (py "talk.txt"))
  ∧ text_lines s = [[]]
  ∧ failed_parts s = []
  ∧ fs s !! child home (py "talk.txt") = Some [10; 10]
  ∧ ¬ Forall (λ text, text ≠ []) (text_lines s).
Proof.
  vm_compute. repeat split. intros H. by apply Forall_cons in H as [H _].
Qed.

(** The recogniser of the studio never answers with an empty text. *)
Lemma hears_nonempty audio hint w text w' :
  recognize_google studio audio hint w = (Ok text, w') → text ≠ [].
Proof.
  cbn. unfold hears. case_bool_decide; [done|]. by intros [= <- _].
Qed.

(** The three parts of the talk, transcribed in the studio. *)
Lemma recorded_texts_nonempty_witness :
  ∃ s',
    transcribe_parts studio settings three_parts (py "fr")
      (start studio 0%nat split_files_on_disk) = (Ok tt, s')
    ∧ Forall (λ text, text ≠ []) (text_lines s').
Proof.
  destruct (recorded_texts_nonempty studio settings three_parts (py "fr")
              (start studio 0%nat split_files_on_disk) hears_nonempty)
    as (s' & Hrun & _ & _ & _ & Hne).
  exists s'. split; [exact Hrun | exact Hne].
Defined.




(** The end of a run in the studio when the split left no part. *)
Lemma empty_split_completes_witness :
  is_Some ((<[child home (py "talk.wav") := [1; 2; 3]]> ∅ : filesystem)
             !! child home (py "talk.wav"))
  ∧ ∃ s',
      (transcribe_parts studio settings [] (py "en") ;;
       final_txt <- assemble studio settings (py "talk") ;;
       offer_downloads studio settings final_txt (child home (py "talk.wav")))%script
        (start studio 0%nat (<[child home (py "talk.wav") := [1; 2; 3]]> ∅))
        = (Ok tt, s')
      ∧ failed_parts s' = []
      ∧ fs s' = <[child home (py "talk.txt") := []]>
                  (<[child home (py "talk.wav") := [1; 2; 3]]> ∅).
Proof.
  assert (is_Some ((<[child home (py "talk.wav") := [1; 2; 3]]> ∅ : filesystem)
                     !! child home (py "talk.wav"))) as Hwav
    by (rewrite lookup_insert_eq; eauto).
  split; [exact Hwav|].
  destruct (empty_split_completes studio settings (py "en") (py "talk")
              (child home (py "talk.wav"))
              (start studio 0%nat (<[child home (py "talk.wav") := [1; 2; 3]]> ∅))
              Hwav eq_refl)
    as (s' & evs & Hrun & _ & Hfp & _ & Hfs & _).
  exists s'. split; [exact Hrun|]. split; [exact Hfp | exact Hfs].
Defined.

(** The claim C10 as it is stated fails: with no segment at all, and
    the audio file in place, the run raises when the text file cannot
    be created, here because a directory has its name.  So does the
    whole run of the talk when the split leaves no part. *)
Lemma empty_split_raises_when_text_refused :
  let s := start crowded_studio 0%nat (<[child home (py "talk.wav") := [1; 2; 3]]> ∅) in
  let finish :=
    (transcribe_parts crowded_studio settings [] (py "en") ;;
     final_txt <- assemble crowded_studio settings (py "talk") ;;
     offer_downloads crowded_studio settings final_txt (child home (py "talk.wav")))%script
      s in
  let run := process_url_to_text crowded_studio settings talk_url [] []
               (start crowded_studio 0%nat ∅) in
  is_Some (fs s !! child home (py "talk.wav"))
  ∧ finish.1 = Raise (Exception (py "Is a directory"))
  ∧ fs finish.2 !! child home (py "talk.txt") = None
  ∧ run.1 = Raise (Exception (py "Is a directory"))
  ∧ length (spawned (trace run.2)) = 2%nat
  ∧ parts_processed run.2 = 0%nat.
Proof.
  intros s finish run. split; [by apply (bool_decide_unpack _); vm_compute|].
  vm_compute. by repeat split.
Qed.

End Runs.

(** * Properties of the rest of the script *)

(** ** The sanitiser, character by character *)

Section SanitizerMore.

Variable uni_alnum : codepoint → bool.
Hypothesis Hword : word_not_space uni_alnum.

Lemma re_sub_space c :
  is_space (if in_class uni_alnum c then c else 95) = (c =? 32).
Proof.
  destruct (N.eqb_spec c 32) as [->|Hne]; [done|].
  destruct (in_class uni_alnum c) eqn:Hin; [|done].
  destruct (in_class_not_space_safe uni_alnum c Hin Hne) as [Hs|[Hge Hu]].
  - by apply ascii_safe_not_space.
  - by apply Hword.
Qed.

Lemma lstrip_re_sub s :
  lstrip (re_sub_class uni_alnum s) = re_sub_class uni_alnum (lstrip_spaces s).
Proof.
  unfold re_sub_class. induction s as [|c s IH]; [done|].
  cbn [fmap list_fmap lstrip lstrip_spaces]. rewrite re_sub_space.
  destruct (c =? 32); [exact IH | done].
Qed.

Lemma strip_re_sub s :
  strip (re_sub_class uni_alnum s) = re_sub_class uni_alnum (strip_spaces s).
Proof.
  unfold strip, rstrip, strip_spaces. rewrite lstrip_re_sub.
  unfold re_sub_class at 1. rewrite <- fmap_reverse.
  fold (re_sub_class uni_alnum (reverse (lstrip_spaces s))).
  rewrite lstrip_re_sub. unfold re_sub_class. by rewrite fmap_reverse.
Qed.

Lemma safe_filename_pointwise s :
  safe_filename uni_alnum s = sanitise_one uni_alnum <$> strip_spaces s.
Proof.
  unfold safe_filename. cbv zeta. rewrite strip_re_sub.
  unfold replace_char, re_sub_class. rewrite <- list_fmap_compose.
  apply list_fmap_ext. intros _ c _. unfold sanitise_one. cbn.
  destruct (N.eqb_spec c 32) as [->|Hne]; [done|].
  destruct (in_class uni_alnum c); [|done].
  by destruct (N.eqb_spec c 32).
Qed.

Lemma lstrip_spaces_nil s : lstrip_spaces s = [] ↔ Forall (λ c, c = 32) s.
Proof.
  induction s as [|c s IH]; [done|]. cbn.
  destruct (N.eqb_spec c 32) as [->|Hne].
  - rewrite IH. split; [by constructor | by intros [_ ?]%Forall_cons].
  - split; [done | by intros [? _]%Forall_cons].
Qed.

Lemma strip_spaces_nil s : strip_spaces s = [] ↔ Forall (λ c, c = 32) s.
Proof.
  unfold strip_spaces. split.
  - intros H. apply (f_equal reverse) in H. rewrite reverse_involutive in H.
    cbn in H. apply lstrip_spaces_nil in H.
    destruct (lstrip_spaces s) as [|c r] eqn:E; [by apply lstrip_spaces_nil|].
    exfalso. rewrite Forall_reverse in H. apply Forall_cons in H as [-> _].
    clear -E. induction s as [|x s IH]; [done|]. cbn in E.
    destruct (N.eqb_spec x 32); [auto | congruence].
  - intros H. apply lstrip_spaces_nil in H. by rewrite H.
Qed.

(** X1. Apart from the spaces cut off at both ends, the sanitiser works
    character by character: every space and every character outside the
    class becomes one underscore (runs are not collapsed) and every other
    character stays as it is. *)
Theorem safe_filename_is_pointwise (s : pystr) :
  safe_filename uni_alnum s = sanitise_one uni_alnum <$> strip_spaces s
  ∧ length (safe_filename uni_alnum s) = length (strip_spaces s).
Proof.
  rewrite safe_filename_pointwise. split; [done | apply length_fmap].
Qed.

(** X2. The sanitised name is empty exactly when the input is made of
    spaces only (the empty string included); other white space becomes
    underscores and so leaves a name. *)
Theorem safe_filename_empty_iff (s : pystr) :
  safe_filename uni_alnum s = [] ↔ Forall (λ c, c = 32) s.
Proof.
  rewrite safe_filename_pointwise, <- strip_spaces_nil. split.
  - apply fmap_nil_inv.
  - by intros ->.
Qed.

End SanitizerMore.

Lemma latin1_word_not_space : word_not_space latin1_alnum.
Proof.
  intros c _ Hal. unfold latin1_alnum in Hal.
  rewrite !orb_true_iff, !andb_true_iff, !N.eqb_eq, !N.leb_le in Hal.
  destruct (is_space c) eqn:Hsp; [|done]. unfold is_space in Hsp.
  rewrite !orb_true_iff, !andb_true_iff, !N.eqb_eq, !N.leb_le in Hsp. lia.
Qed.

(** The sanitiser on the Latin-1 alphabet, character by character. *)
Lemma safe_filename_is_pointwise_witness :
  safe_filename latin1_alnum (py " a  b/c ") = py "a__b_c"
  ∧ length (safe_filename latin1_alnum (py " a  b/c ")) = 6%nat.
Proof.
  destruct (safe_filename_is_pointwise latin1_alnum latin1_word_not_space (py " a  b/c "))
    as [H1 H2].
  split; [exact H1 | exact H2].
Defined.

(** A title of spaces only gives the empty name. *)
Lemma safe_filename_empty_iff_witness :
  safe_filename latin1_alnum (py "   ") = [] ↔ Forall (λ c, c = 32) (py "   ").
Proof.
  exact (safe_filename_empty_iff latin1_alnum latin1_word_not_space (py "   ")).
Defined.

(** ** What a computation may add to the trace *)

Section TraceRules.

Variable X : Externals.
Variable P : event → Prop.

Lemma emits_ret {A} (a : A) : emits_only P (ret (X := X) a).
Proof. intros s. exists []. by rewrite app_nil_r. Qed.

Lemma emits_raise {A} e : emits_only P (raise (X := X) (A := A) e).
Proof. intros s. exists []. by rewrite app_nil_r. Qed.

Lemma emits_get {A} (f : state X → A) : emits_only P (get f).
Proof. intros s. exists []. by rewrite app_nil_r. Qed.

Lemma emits_modify (f : state X → state X) :
  (∀ s, trace (f s) = trace s) → emits_only P (modify f).
Proof. intros Hf s. exists []. cbn. by rewrite Hf, app_nil_r. Qed.

Lemma emits_emit ev : P ev → emits_only P (emit (X := X) ev).
Proof. intros Hev s. exists [ev]. cbn. split; [done | by constructor]. Qed.

Lemma emits_bind {A B} (m : M X A) (k : A → M X B) :
  emits_only P m → (∀ a, emits_only P (k a)) → emits_only P (bind m k).
Proof.
  intros Hm Hk s. unfold bind. destruct (Hm s) as (evs1 & Htr1 & Hall1).
  destruct (m s) as [[a|e] s1]; cbn in *.
  - destruct (Hk a s1) as (evs2 & Htr2 & Hall2).
    exists (evs1 ++ evs2). rewrite Htr2, Htr1, app_assoc.
    split; [done | by apply Forall_app].
  - by exists evs1.
Qed.

Lemma emits_try {A} (body : M X A) (handler : exn → M X A) :
  emits_only P body → (∀ e, emits_only P (handler e)) →
  emits_only P (try_except body handler).
Proof.
  intros Hm Hk s. unfold try_except. destruct (Hm s) as (evs1 & Htr1 & Hall1).
  destruct (body s) as [[a|e] s1]; cbn in *.
  - by exists evs1.
  - destruct (Hk e s1) as (evs2 & Htr2 & Hall2).
    exists (evs1 ++ evs2). rewrite Htr2, Htr1, app_assoc.
    split; [done | by apply Forall_app].
Qed.

(** A step that leaves the trace as it is. *)
Lemma emits_silent {A} (m : M X A) :
  (∀ s, trace (m s).2 = trace s) → emits_only P m.
Proof. intros Hm s. exists []. by rewrite Hm, app_nil_r. Qed.

End TraceRules.

Section TraceOfTheScript.

Variable X : Externals.
Variable cfg : Settings.
Variable P : event → Prop.

(** The calls into the interface other than the log area, and the calls
    to the recogniser, the identifier and the wave-file reader, are
    allowed; so is a log area of at most 200 lines. *)
Hypothesis HPlain : ∀ ev, is_spawn ev = false → is_log_area ev = false → P ev.
Hypothesis HLog : ∀ lines, (length lines ≤ 200)%nat → P (LogArea lines).

Lemma emits_plain ev :
  is_spawn ev = false → is_log_area ev = false → emits_only P (emit (X := X) ev).
Proof. intros. by apply emits_emit, HPlain. Qed.

Lemma emits_log msg : emits_only P (log X msg).
Proof.
  unfold log. apply emits_bind; [by apply emits_modify|]. intros _.
  apply emits_bind; [apply emits_get|]. intros lines.
  apply emits_emit, HLog. rewrite length_drop. lia.
Qed.

Lemma emits_call_subprocess cmd :
  P (CallSubprocess cmd) → emits_only P (call_subprocess X cmd).
Proof.
  intros Hcmd. unfold call_subprocess.
  apply emits_bind; [by apply emits_emit|]. intros _.
  apply emits_silent. intros s.
  by destruct (subprocess_run X cmd (fs s) (ext s)) as [[r f] w].
Qed.

Lemma emits_run_cmd_capture cmd :
  P (CallSubprocess cmd) → emits_only P (run_cmd_capture X cmd).
Proof.
  intros Hcmd. unfold run_cmd_capture.
  apply emits_try; [|intros e; apply emits_ret].
  apply emits_bind; [by apply emits_call_subprocess | intros cp; apply emits_ret].
Qed.

Lemma emits_sr_record p duration : emits_only P (sr_record X p duration).
Proof.
  unfold sr_record. apply emits_bind; [by apply emits_plain|]. intros _.
  apply emits_silent. intros s. by destruct (fs s !! p).
Qed.

Lemma emits_call_recognize audio language :
  emits_only P (call_recognize X audio language).
Proof.
  unfold call_recognize. apply emits_bind; [by apply emits_plain|]. intros _.
  apply emits_silent. intros s.
  by destruct (recognize_google X audio language (ext s)).
Qed.

Lemma emits_call_detect text : emits_only P (call_detect X text).
Proof.
  unfold call_detect. apply emits_bind; [by apply emits_plain|]. intros _.
  apply emits_silent. intros s. by destruct (detect X text (ext s)).
Qed.

Lemma emits_shutil_move src dst : emits_only P (shutil_move X src dst).
Proof.
  apply emits_silent. intros s. unfold shutil_move.
  destruct (fs s !! src); [|done]. by destruct (os_refuses X dst (fs s) (ext s)).
Qed.

Lemma emits_open_w p : emits_only P (open_w X p).
Proof.
  apply emits_silent. intros s. unfold open_w.
  by destruct (os_refuses X p (fs s) (ext s)).
Qed.

Lemma emits_file_write p data : emits_only P (file_write X p data).
Proof.
  apply emits_silent. intros s. unfold file_write. by destruct (utf8_encodable data).
Qed.

Lemma emits_read_file p : emits_only P (read_file X p).
Proof. apply emits_silent. intros s. unfold read_file. by destruct (fs s !! p). Qed.

Lemma emits_sorted_glob_wav d : emits_only P (sorted_glob_wav X d).
Proof. apply emits_get. Qed.

Lemma emits_percent_of i n : emits_only P (percent_of X i n).
Proof. unfold percent_of. case_bool_decide; [apply emits_raise | apply emits_ret]. Qed.

End TraceOfTheScript.

(** One step of a proof that a stage only emits allowed events. *)
Ltac emits_step :=
  first
    [ apply emits_log; assumption
    | apply emits_sr_record; assumption
    | apply emits_call_recognize; assumption
    | apply emits_call_detect; assumption
    | apply emits_shutil_move
    | apply emits_open_w
    | apply emits_file_write
    | apply emits_read_file
    | apply emits_sorted_glob_wav
    | apply emits_percent_of
    | apply emits_plain; [assumption | reflexivity | reflexivity]
    | apply emits_ret
    | apply emits_raise
    | apply emits_get
    | apply emits_modify; reflexivity
    | match goal with
      | |- emits_only _ (when _ ?b _) => unfold when; destruct b
      | |- emits_only _ (if ?b then _ else _) => destruct b
      | |- emits_only _ (match ?x with _ => _ end) => destruct x
      | |- emits_only _ (bind _ _) => apply emits_bind; [|intros ?]
      | |- emits_only _ (try_except _ _) => apply emits_try; [|intros ?]
      end ].

Section TraceOfTheStages.

Variable X : Externals.
Variable cfg : Settings.
Variable P : event → Prop.
Hypothesis HPlain : ∀ ev, is_spawn ev = false → is_log_area ev = false → P ev.
Hypothesis HLog : ∀ lines, (length lines ≤ 200)%nat → P (LogArea lines).

Lemma emits_detect_language dst_wav : emits_only P (detect_language X cfg dst_wav).
Proof. unfold detect_language. repeat emits_step. Qed.

Lemma emits_recognize_with_fallbacks audio lang :
  emits_only P (recognize_with_fallbacks X audio lang).
Proof. unfold recognize_with_fallbacks. repeat emits_step. Qed.

Lemma emits_transcribe_part total lang idx part :
  emits_only P (transcribe_part X cfg total lang idx part).
Proof.
  unfold transcribe_part.
  repeat first [ apply emits_recognize_with_fallbacks | emits_step ].
Qed.

Lemma emits_transcribe_loop total lang parts :
  ∀ idx, emits_only P (transcribe_loop X cfg total lang idx parts).
Proof.
  induction parts as [|part rest IH]; intros idx; cbn [transcribe_loop].
  - apply emits_ret.
  - apply emits_bind; [apply emits_transcribe_part | intros _; apply IH].
Qed.

Lemma emits_transcribe_parts split_files lang :
  emits_only P (transcribe_parts X cfg split_files lang).
Proof.
  unfold transcribe_parts.
  repeat first [ apply emits_transcribe_loop | emits_step ].
Qed.

Lemma emits_write_lines final_txt lines :
  emits_only P (write_lines X final_txt lines).
Proof.
  induction lines as [|line rest IH]; cbn [write_lines]; repeat emits_step.
  exact IH.
Qed.

Lemma emits_write_failed failed : emits_only P (write_failed X failed).
Proof.
  induction failed as [|p rest IH]; cbn [write_failed]; repeat emits_step.
  exact IH.
Qed.

Lemma emits_assemble title_base : emits_only P (assemble X cfg title_base).
Proof.
  unfold assemble, save_final_text, report_failures.
  repeat first [ apply emits_write_lines | apply emits_write_failed | emits_step ].
Qed.

Lemma emits_offer_downloads final_txt dst_wav :
  emits_only P (offer_downloads X cfg final_txt dst_wav).
Proof. unfold offer_downloads. repeat emits_step. Qed.

End TraceOfTheStages.

(** ** The commands of a run *)

Section SpawnFacts.

Variable X : Externals.
Variable cfg : Settings.

#[local] Arguments sorted : simpl never.
#[local] Arguments glob_wav : simpl never.
#[local] Arguments safe_filename : simpl never.
#[local] Arguments stem : simpl never.
#[local] Arguments truthy : simpl never.
#[local] Arguments yt_cmd : simpl never.
#[local] Arguments split_cmd : simpl never.
#[local] Arguments child : simpl never.
#[local] Arguments name : simpl never.





(** What [glob] lists: exactly the files of the directory whose name
    ends in ".wav", each once. *)
Lemma glob_wav_iff (d : path) (files : filesystem) (p : path) :
  p ∈ glob_wav d files ↔ is_Some (files !! p) ∧ matches_wav d p = true.
Proof.
  unfold glob_wav. rewrite list_elem_of_filter, list_elem_of_fmap. split.
  - intros (Hm & [p' data] & -> & Hin). apply elem_of_map_to_list in Hin.
    cbn in *. eauto.
  - intros ([data Hdata] & Hm). split; [done|].
    exists (p, data). split; [done|]. by apply elem_of_map_to_list.
Qed.

Lemma glob_wav_NoDup (d : path) (files : filesystem) : NoDup (glob_wav d files).
Proof. unfold glob_wav. apply NoDup_filter, NoDup_fst_map_to_list. Qed.

#[local] Existing Instance path_le_total.
#[local] Existing Instance path_le_trans.

(** [sorted] of a list without repetition is strictly increasing. *)
Lemma sorted_strict (l : list path) :
  NoDup l → StronglySorted (λ p q, path_compare p q = Lt) (sorted l).
Proof.
  intros Hnd. unfold sorted.
  pose proof (StronglySorted_merge_sort path_le l) as Hs.
  assert (NoDup (merge_sort path_le l)) as Hnd'
    by (by rewrite merge_sort_Permutation).
  induction Hs as [|p rest Hs IH Hall]; [constructor|].
  apply NoDup_cons in Hnd' as [Hp Hnd']. constructor; [by apply IH|].
  apply Forall_forall. intros q Hq.
  eapply Forall_forall in Hall; [|exact Hq]. unfold path_le in Hall.
  destruct (path_compare p q) eqn:E; [|done|done].
  apply path_compare_eq in E. by subst.
Qed.

Lemma split_audio_spec dst_wav split_dir (s : state X) :
  ∃ r s' evs,
    split_audio X cfg dst_wav split_dir s = (Ok r, s')
    ∧ trace s' = trace s ++ evs
    ∧ spawned evs = [split_cmd cfg dst_wav split_dir]
    ∧ fs s' = (subprocess_run X (split_cmd cfg dst_wav split_dir) (fs s) (ext s)).1.2
    ∧ (r = None ↔
         tool_failed (subprocess_run X (split_cmd cfg dst_wav split_dir) (fs s) (ext s)).1.1)
    ∧ match r with
      | None => True
      | Some split_files =>
          split_files = sorted (glob_wav split_dir (fs s'))
      end.
Proof.
  unfold split_audio, bind, log, emit, modify, get, when, ret, bind, sorted_glob_wav, get.
  destruct s as [fs0 w0 tr0 lg0 tl0 fp0 pp0]. cbn.
  rewrite run_cmd_capture_eq. cbn.
  destruct (subprocess_run X (split_cmd cfg dst_wav split_dir) fs0 w0)
    as [[[cp|e] fs1] w1]; cbn.
  2: destruct (show_detailed_logs cfg); cbn;
    (eexists None, _, _; split; [reflexivity|]; cbn;
     split; [rewrite <- ?app_assoc; reflexivity|];
     split; [reflexivity|]; split; [reflexivity|]; done).
  destruct (Z.eqb_spec (returncode cp) 0) as [Hrc|Hrc]; cbn.
  2: destruct (show_detailed_logs cfg); cbn;
    (eexists None, _, _; split; [reflexivity|]; cbn;
     split; [rewrite <- ?app_assoc; reflexivity|];
     split; [reflexivity|]; split; [reflexivity|]; done).
  eexists (Some _), _, _. split; [reflexivity|]. cbn.
  split; [rewrite <- ?app_assoc; reflexivity|].
  split; [reflexivity|]. split; [reflexivity|]. split; [|reflexivity].
  split; [done | by intros ?].
Qed.

End SpawnFacts.

(** ** The whole run *)

Section TraceOfTheRun.

Variable X : Externals.
Variable cfg : Settings.
Variable P : event → Prop.
Hypothesis HPlain : ∀ ev, is_spawn ev = false → is_log_area ev = false → P ev.
Hypothesis HLog : ∀ lines, (length lines ≤ 200)%nat → P (LogArea lines).
Hypothesis HYt : ∀ tmp_dir url cookie_file,
  P (CallSubprocess (yt_cmd tmp_dir url cookie_file)).
Hypothesis HSplit : ∀ dst_wav split_dir,
  P (CallSubprocess (split_cmd cfg dst_wav split_dir)).

Lemma emits_download_audio tmp_dir url cookie_file prefix :
  emits_only P (download_audio X cfg tmp_dir url cookie_file prefix).
Proof.
  unfold download_audio.
  repeat first [ apply emits_run_cmd_capture, HYt
               | emits_step ].
Qed.

Lemma emits_split_audio dst_wav split_dir :
  emits_only P (split_audio X cfg dst_wav split_dir).
Proof.
  unfold split_audio.
  repeat first [ apply emits_run_cmd_capture, HSplit
               | emits_step ].
Qed.

Lemma emits_with_temporary_directory {A} (body : M X A) :
  emits_only P body → emits_only P (with_temporary_directory X cfg body).
Proof.
  intros Hbody s. destruct (Hbody s) as (evs & Htr & Hall). exists evs.
  unfold with_temporary_directory. by destruct (body s).
Qed.

Lemma emits_process_url_to_text url cookie_file prefix :
  emits_only P (process_url_to_text X cfg url cookie_file prefix).
Proof.
  unfold process_url_to_text.
  repeat first
    [ apply emits_with_temporary_directory
    | apply emits_download_audio
    | apply emits_detect_language; assumption
    | apply emits_split_audio
    | apply emits_transcribe_parts; assumption
    | apply emits_assemble; assumption
    | apply emits_offer_downloads; assumption
    | emits_step ].
Qed.

End TraceOfTheRun.

Section RunFacts.

Variable X : Externals.
Variable cfg : Settings.

#[local] Arguments sorted : simpl never.
#[local] Arguments glob_wav : simpl never.
#[local] Arguments safe_filename : simpl never.
#[local] Arguments truthy : simpl never.
#[local] Arguments yt_cmd : simpl never.
#[local] Arguments split_cmd : simpl never.
#[local] Arguments child : simpl never.
#[local] Arguments name : simpl never.





(** X4. The split stage never raises, and it stops the run exactly
    when the tool fails.  Otherwise the segments it hands to the loop
    are the files of the split directory whose name ends in ".wav", as
    they are on the disk after the command, each once and in strictly
    increasing order of their names. *)
Theorem split_audio_segments (dst_wav split_dir : path) (s : state X) :
  let spawn := subprocess_run X (split_cmd cfg dst_wav split_dir) (fs s) (ext s) in
  match split_audio X cfg dst_wav split_dir s with
  | (Ok (Some split_files), s') =>
      ¬ tool_failed spawn.1.1
      ∧ fs s' = spawn.1.2
      ∧ StronglySorted (λ p q, path_compare p q = Lt) split_files
      ∧ ∀ p, p ∈ split_files ↔ is_Some (fs s' !! p) ∧ matches_wav split_dir p = true
  | (Ok None, _) => tool_failed spawn.1.1
  | (Raise _, _) => False
  end.
Proof.
  intros spawn.
  destruct (split_audio_spec X cfg dst_wav split_dir s)
    as (r & s' & evs & -> & _ & _ & Hfs & Hnone & Hr).
  destruct r as [split_files|]; [|by apply Hnone].
  subst split_files. split; [|split; [done|split]].
  - intros Hfailed. by apply Hnone in Hfailed.
  - apply sorted_strict, glob_wav_NoDup.
  - intros p. unfold sorted. rewrite merge_sort_Permutation. apply glob_wav_iff.
Qed.


(** X6. Whatever the run does and however it ends, the log area never
    shows more than 200 lines, and every command the run spawns is a
    call of yt-dlp or of ffmpeg. *)
Theorem process_url_to_text_tidy (url cookie_file prefix : pystr) (s : state X) :
  ∃ evs,
    trace (process_url_to_text X cfg url cookie_file prefix s).2 = trace s ++ evs
    ∧ Forall tidy evs.
Proof.
  apply emits_process_url_to_text.
  - intros ev Hspawn Hlog. by destruct ev.
  - done.
  - intros. by left.
  - intros. by right.
Qed.

End RunFacts.

(** ** The calls a stage may make *)

Section CostRules.

Variable X : Externals.
Variable cost : event → nat.

Lemma spent_app l1 l2 : spent cost (l1 ++ l2) = (spent cost l1 + spent cost l2)%nat.
Proof. apply sum_list_with_app. Qed.

Lemma most_weaken {A} (m : M X A) a b :
  emits_at_most cost a m → (a ≤ b)%nat → emits_at_most cost b m.
Proof.
  intros Hm Hab s. destruct (Hm s) as (evs & Htr & Hk). exists evs. split; [done | lia].
Qed.

Lemma most_silent {A} (m : M X A) :
  (∀ s, trace (m s).2 = trace s) → emits_at_most cost 0 m.
Proof. intros Hm s. exists []. by rewrite Hm, app_nil_r. Qed.

Lemma most_ret {A} (a : A) : emits_at_most cost 0 (ret (X := X) a).
Proof. by apply most_silent. Qed.

Lemma most_raise {A} e : emits_at_most cost 0 (raise (X := X) (A := A) e).
Proof. by apply most_silent. Qed.

Lemma most_get {A} (f : state X → A) : emits_at_most cost 0 (get f).
Proof. by apply most_silent. Qed.

Lemma most_modify (f : state X → state X) :
  (∀ s, trace (f s) = trace s) → emits_at_most cost 0 (modify f).
Proof. intros Hf. apply most_silent. intros s. apply Hf. Qed.

Lemma most_emit ev : emits_at_most cost (cost ev) (emit (X := X) ev).
Proof. intros s. exists [ev]. cbn. split; [done | lia]. Qed.

Lemma most_bind {A B} (m : M X A) (k : A → M X B) a b :
  emits_at_most cost a m → (∀ x, emits_at_most cost b (k x)) →
  emits_at_most cost (a + b) (bind m k).
Proof.
  intros Hm Hk s. unfold bind. destruct (Hm s) as (evs1 & Htr1 & Hk1).
  destruct (m s) as [[x|e] s1]; cbn in *.
  - destruct (Hk x s1) as (evs2 & Htr2 & Hk2).
    exists (evs1 ++ evs2). rewrite Htr2, Htr1, app_assoc, spent_app.
    split; [done | lia].
  - exists evs1. split; [done | lia].
Qed.

Lemma most_try {A} (body : M X A) (handler : exn → M X A) a b :
  emits_at_most cost a body → (∀ e, emits_at_most cost b (handler e)) →
  emits_at_most cost (a + b) (try_except body handler).
Proof.
  intros Hm Hk s. unfold try_except. destruct (Hm s) as (evs1 & Htr1 & Hk1).
  destruct (body s) as [[x|e] s1]; cbn in *.
  - exists evs1. split; [done | lia].
  - destruct (Hk e s1) as (evs2 & Htr2 & Hk2).
    exists (evs1 ++ evs2). rewrite Htr2, Htr1, app_assoc, spent_app.
    split; [done | lia].
Qed.

Lemma most_if {A} (b : bool) (m1 m2 : M X A) k1 k2 :
  emits_at_most cost k1 m1 → emits_at_most cost k2 m2 →
  emits_at_most cost (k1 `max` k2) (if b then m1 else m2).
Proof.
  intros H1 H2. destruct b; [eapply most_weaken; [exact H1 | lia]
                            |eapply most_weaken; [exact H2 | lia]].
Qed.

(** A stage all of whose events are free spends nothing. *)
Lemma most_free {A} (m : M X A) :
  emits_only (λ ev, cost ev = 0%nat) m → emits_at_most cost 0 m.
Proof.
  intros Hm s. destruct (Hm s) as (evs & Htr & Hall). exists evs. split; [done|].
  clear Htr. induction Hall as [|ev evs Hev _ IH]; [done|].
  unfold spent in *. cbn in *. lia.
Qed.

Lemma spent_one_if (f : event → bool) (evs : list event) :
  spent (one_if f) evs = calls f evs.
Proof.
  unfold spent, calls, one_if. induction evs as [|ev evs IH]; [done|].
  rewrite filter_cons. cbn [sum_list_with]. rewrite IH.
  destruct (f ev); [by rewrite decide_True | by rewrite decide_False].
Qed.

End CostRules.

Section CostOfTheStages.

Variable X : Externals.
Variable cfg : Settings.
Variable cost : event → nat.
Variables a b c : nat.

(** A reading costs at most [a], a recognition at most [b], an
    identification at most [c], and nothing else costs anything. *)
Hypothesis HRecord : ∀ p d, (cost (CallRecord p d) ≤ a)%nat.
Hypothesis HRecognize : ∀ audio l, (cost (CallRecognize audio l) ≤ b)%nat.
Hypothesis HDetect : ∀ text, (cost (CallDetect text) ≤ c)%nat.
Hypothesis HFree : ∀ ev, is_call ev = false → cost ev = 0%nat.

Lemma most_emit_free ev : is_call ev = false → emits_at_most cost 0 (emit (X := X) ev).
Proof.
  intros Hev. eapply most_weaken; [apply most_emit|]. by rewrite HFree.
Qed.

Lemma most_log msg : emits_at_most cost 0 (log X msg).
Proof.
  apply most_free, emits_log. intros lines _. by apply HFree.
Qed.

Lemma most_sr_record p d : emits_at_most cost a (sr_record X p d).
Proof.
  unfold sr_record. eapply most_weaken.
  - apply most_bind; [apply most_emit|]. intros _.
    apply most_silent. intros s. by destruct (fs s !! p).
  - specialize (HRecord p d). lia.
Qed.

Lemma most_call_recognize audio l : emits_at_most cost b (call_recognize X audio l).
Proof.
  unfold call_recognize. eapply most_weaken.
  - apply most_bind; [apply most_emit|]. intros _.
    apply most_silent. intros s. by destruct (recognize_google X audio l (ext s)).
  - specialize (HRecognize audio l). lia.
Qed.

Lemma most_call_detect text : emits_at_most cost c (call_detect X text).
Proof.
  unfold call_detect. eapply most_weaken.
  - apply most_bind; [apply most_emit|]. intros _.
    apply most_silent. intros s. by destruct (detect X text (ext s)).
  - specialize (HDetect text). lia.
Qed.

Lemma most_percent_of i n : emits_at_most cost 0 (percent_of X i n).
Proof. unfold percent_of. case_bool_decide; [apply most_raise | apply most_ret]. Qed.

End CostOfTheStages.

(** One step of the count of what a stage spends. *)
Ltac most_step :=
  first
    [ apply most_log; assumption
    | eapply most_sr_record; eassumption
    | eapply most_call_recognize; eassumption
    | eapply most_call_detect; eassumption
    | apply most_percent_of
    | apply most_emit_free; [assumption | reflexivity]
    | apply most_ret
    | apply most_raise
    | apply most_get
    | apply most_modify; reflexivity
    | match goal with
      | |- emits_at_most _ _ (if _ then _ else _) => eapply most_if
      | |- emits_at_most _ _ (bind _ _) => eapply most_bind; [|intros ?]
      | |- emits_at_most _ _ (try_except _ _) => eapply most_try; [|intros ?]
      end ].

Section BudgetOfTheStages.

Variable X : Externals.
Variable cfg : Settings.
Variable cost : event → nat.
Variables a b c : nat.
Hypothesis HRecord : ∀ p d, (cost (CallRecord p d) ≤ a)%nat.
Hypothesis HRecognize : ∀ audio l, (cost (CallRecognize audio l) ≤ b)%nat.
Hypothesis HDetect : ∀ text, (cost (CallDetect text) ≤ c)%nat.
Hypothesis HFree : ∀ ev, is_call ev = false → cost ev = 0%nat.

Lemma most_detect_language dst_wav :
  emits_at_most cost (a + 2 * b + c) (detect_language X cfg dst_wav).
Proof.
  eapply most_weaken; [unfold detect_language; repeat most_step | lia].
Qed.

Lemma most_recognize_with_fallbacks audio lang :
  emits_at_most cost (4 * b) (recognize_with_fallbacks X audio lang).
Proof.
  eapply most_weaken; [unfold recognize_with_fallbacks; repeat most_step | lia].
Qed.

Lemma most_transcribe_part total lang idx part :
  emits_at_most cost (a + 4 * b) (transcribe_part X cfg total lang idx part).
Proof.
  eapply most_weaken;
    [unfold transcribe_part;
     repeat first [ eapply most_recognize_with_fallbacks | most_step ]
    | lia].
Qed.

Lemma most_transcribe_loop total lang parts :
  ∀ idx, emits_at_most cost (length parts * (a + 4 * b))
           (transcribe_loop X cfg total lang idx parts).
Proof.
  induction parts as [|part rest IH]; intros idx; cbn [transcribe_loop length].
  - apply most_ret.
  - eapply most_weaken;
      [apply most_bind; [apply most_transcribe_part | intros _; apply IH] | lia].
Qed.

Lemma most_transcribe_parts split_files lang :
  emits_at_most cost (length split_files * (a + 4 * b))
    (transcribe_parts X cfg split_files lang).
Proof.
  eapply most_weaken;
    [unfold transcribe_parts;
     repeat first [ eapply most_transcribe_loop | most_step ]
    | lia].
Qed.

End BudgetOfTheStages.

Lemma one_if_le (f : event → bool) ev : (one_if f ev ≤ 1)%nat.
Proof. unfold one_if. destruct (f ev); lia. Qed.

(** The cost of each kind of event, when one kind is counted. *)
Ltac kind_costs :=
  first [ intros; apply one_if_le
        | intros; cbn; lia
        | intros ev Hev; destruct ev; by cbn in * ].

Section Budgets.

Variable X : Externals.
Variable cfg : Settings.

Lemma calls_at_most {A} (f : event → bool) (k : nat) (m : M X A) (s : state X) evs :
  emits_at_most (one_if f) k m →
  trace (m s).2 = trace s ++ evs →
  (calls f evs ≤ k)%nat.
Proof.
  intros Hm Htr. destruct (Hm s) as (evs' & Htr' & Hk).
  rewrite Htr in Htr'. apply app_inv_head in Htr'. subst evs'.
  by rewrite <- spent_one_if.
Qed.

(** X7. The calls of the detection stage.  However the stage goes, it
    reads the audio file at most once, calls the recogniser at most
    twice and the language identifier at most once. *)
Theorem detect_language_budget (dst_wav : path) (s : state X) :
  ∃ evs,
    trace (detect_language X cfg dst_wav s).2 = trace s ++ evs
    ∧ (calls is_record evs ≤ 1)%nat
    ∧ (calls is_recognition evs ≤ 2)%nat
    ∧ (calls is_identification evs ≤ 1)%nat.
Proof.
  destruct (emits_detect_language X cfg (λ _, True) ltac:(done) ltac:(done) dst_wav s)
    as (evs & Htr & _).
  exists evs. split; [done|]. repeat split.
  - eapply (calls_at_most is_record); [|exact Htr].
    eapply most_weaken;
      [apply (most_detect_language X cfg (one_if is_record) 1 0 0) | lia];
      kind_costs.
  - eapply (calls_at_most is_recognition); [|exact Htr].
    eapply most_weaken;
      [apply (most_detect_language X cfg (one_if is_recognition) 0 1 0) | lia];
      kind_costs.
  - eapply (calls_at_most is_identification); [|exact Htr].
    eapply most_weaken;
      [apply (most_detect_language X cfg (one_if is_identification) 0 0 1) | lia];
      kind_costs.
Qed.

(** X8. The calls of the transcription loop over n segments: at most n
    readings of a wave file, at most 4n calls of the recogniser, and no
    call of the language identifier. *)
Theorem transcribe_parts_budget
    (split_files : list path) (detected_lang : pystr) (s : state X) :
  ∃ evs,
    trace (transcribe_parts X cfg split_files detected_lang s).2 = trace s ++ evs
    ∧ (calls is_record evs ≤ length split_files)%nat
    ∧ (calls is_recognition evs ≤ 4 * length split_files)%nat
    ∧ calls is_identification evs = 0%nat.
Proof.
  destruct (emits_transcribe_parts X cfg (λ _, True) ltac:(done) ltac:(done)
              split_files detected_lang s) as (evs & Htr & _).
  exists evs. split; [done|]. repeat split.
  - eapply (calls_at_most is_record); [|exact Htr].
    eapply most_weaken;
      [apply (most_transcribe_parts X cfg (one_if is_record) 1 0) | lia];
      kind_costs.
  - eapply (calls_at_most is_recognition); [|exact Htr].
    eapply most_weaken;
      [apply (most_transcribe_parts X cfg (one_if is_recognition) 0 1) | lia];
      kind_costs.
  - apply Nat.le_0_r.
    eapply (calls_at_most is_identification); [|exact Htr].
    eapply most_weaken;
      [apply (most_transcribe_parts X cfg (one_if is_identification) 0 0) | lia];
      kind_costs.
Qed.

End Budgets.

(** ** What the loop leaves *)

Section LoopMore.

Variable X : Externals.
Variable cfg : Settings.

Lemma outcomes_length (os : list outcome) :
  (length (successes os) + length (failures os))%nat = length os.
Proof.
  induction os as [|o os IH]; [done|]. destruct o as [text|n].
  - change (successes (Transcribed text :: os)) with (text :: successes os).
    change (failures (Transcribed text :: os)) with (failures os).
    cbn [length]. lia.
  - change (successes (Failed n :: os)) with (successes os).
    change (failures (Failed n :: os)) with (n :: failures os).
    cbn [length]. lia.
Qed.

Lemma failures_sublist lang segments outs :
  Forall2 (chain_followed lang) segments outs →
  failures outs.*1 `sublist_of` name <$> segments.
Proof.
  induction 1 as [|segment [o tried] segments outs [_ Ho] _ IH]; [constructor|].
  destruct o as [text|n]; cbn in *.
  - by apply sublist_cons.
  - destruct Ho as [-> _]. by apply sublist_skip.
Qed.

(** X9. The loop accounts for every segment once.  Whatever was in
    the two lists before, after the loop the number of recorded texts
    and the number of recorded failures add up to the number of
    segments, the failures are names of segments, in the order of the
    segments, the counter of processed parts is the number of segments,
    and the loop has written no file. *)
Theorem transcribe_parts_accounts
    (split_files : list path) (detected_lang : pystr) (s : state X) :
  ∃ s',
    transcribe_parts X cfg split_files detected_lang s = (Ok tt, s')
    ∧ (length (text_lines s') + length (failed_parts s'))%nat = length split_files
    ∧ failed_parts s' `sublist_of` name <$> split_files
    ∧ parts_processed s' = length split_files
    ∧ fs s' = fs s.
Proof.
  destruct (transcribe_parts_spec X cfg split_files detected_lang s)
    as (s' & evs & Hrun & Hpp & Hfs & _ & Htl & Hfp & _ & _).
  exists s'. split; [done|]. rewrite Htl, Hfp. repeat split; try done.
  - by rewrite outcomes_length, length_fmap, transcribeAll_length.
  - eapply failures_sublist, transcribeAll_chain.
Qed.

End LoopMore.

(** ** The end of a run *)

Section FinishFacts.

Variable X : Externals.
Variable cfg : Settings.

#[local] Arguments child : simpl never.
#[local] Arguments name : simpl never.

(** The transcript and the audio never share a path. *)
Lemma txt_is_not_wav (d : path) (title_base other : pystr) :
  child d (title_base ++ py ".txt") ≠ child d (other ++ py ".wav").
Proof.
  intros Heq. apply child_inj in Heq as [_ Heq].
  apply (f_equal reverse) in Heq. rewrite !reverse_app in Heq.
  discriminate Heq.
Qed.





(** X11. The transcript never overwrites the audio: whether it
    completes or raises, the aggregator writes at most one file, whose
    name ends in ".txt", and every other file, the audio of any title
    among them, is as it was. *)
Theorem assemble_keeps_audio (title_base other : pystr) (p : path) (s : state X) :
  let final_txt := child (cwd cfg) (title_base ++ py ".txt") in
  let dst_wav := child (cwd cfg) (other ++ py ".wav") in
  ∃ r s',
    assemble X cfg title_base s = (r, s')
    ∧ fs s' !! dst_wav = fs s !! dst_wav
    ∧ (p ≠ final_txt → fs s' !! p = fs s !! p)
    ∧ match r with Ok _ => is_Some (fs s' !! final_txt) | Raise _ => True end.
Proof.
  intros final_txt dst_wav.
  destruct (assemble_spec X cfg title_base s) as (s' & evs & Hrun & Hfs & _).
  fold final_txt in Hrun, Hfs.
  eexists _, s'. split; [exact Hrun|]. rewrite Hfs.
  destruct (os_refuses X final_txt (fs s) (ext s)) as [e|]; [done|].
  split; [|split].
  - apply lookup_insert_ne, txt_is_not_wav.
  - intros Hp. by apply lookup_insert_ne.
  - destruct (forallb utf8_encodable (text_lines s)); [|done].
    by rewrite lookup_insert_eq.
Qed.

(** What [rmtree] leaves. *)
Lemma rmtree_lookup (d p : path) (files : filesystem) :
  rmtree d files !! p = if decide (d `prefix_of` p) then None else files !! p.
Proof.
  unfold rmtree. destruct (decide (d `prefix_of` p)) as [Hp|Hp].
  - apply map_lookup_filter_None. right. intros data _ Hkeep. by apply Hkeep.
  - destruct (files !! p) as [data|] eqn:Hdata.
    + by apply map_lookup_filter_Some.
    + apply map_lookup_filter_None. by left.
Qed.

(** X12. The scratch directory of a run that was not refused is gone
    when the run ends: no file is left in it or below it, whether the
    run completed, stopped early or raised, and whatever the setting
    "remove the temporary files" says. *)
Theorem temporary_directory_removed
    (url cookie_file prefix : pystr) (s : state X) (p : path) :
  truthy url = true →
  bin_yt_dlp cfg = true →
  bin_ffmpeg cfg = true →
  libraries_importable cfg = true →
  base_tmp cfg `prefix_of` p →
  fs (process_url_to_text X cfg url cookie_file prefix s).2 !! p = None.
Proof.
  intros Hurl Hyt Hffmpeg Hlibs Hp.
  unfold process_url_to_text. rewrite Hurl, Hyt, Hffmpeg, Hlibs. cbn [negb].
  unfold with_temporary_directory.
  match goal with |- context [bind ?m ?k s] => destruct (bind m k s) as [r s'] end.
  cbn. rewrite rmtree_lookup. by rewrite decide_True.
Qed.


End FinishFacts.

(** ** The helpers *)

Section HelperFacts.

Variable X : Externals.
Variable cfg : Settings.

#[local] Arguments strip : simpl never.

(** X14. The log.  A call appends its line to the buffer and shows
    the buffer again: what is shown is the end of the buffer, the new
    line last, all of the buffer while it has at most 200 lines and
    its last 200 lines afterwards.  Logging touches nothing else. *)
Theorem log_shows_latest (msg : message) (s : state X) :
  let lines := log_text_lines s ++ [msg] in
  ∃ s' shown,
    log X msg s = (Ok tt, s')
    ∧ log_text_lines s' = lines
    ∧ trace s' = trace s ++ [LogArea shown]
    ∧ shown `suffix_of` lines
    ∧ length shown = (length lines `min` 200)%nat
    ∧ last shown = Some msg
    ∧ fs s' = fs s ∧ ext s' = ext s ∧ text_lines s' = text_lines s
    ∧ failed_parts s' = failed_parts s.
Proof.
  intros lines. unfold log, bind, modify, get, emit, modify.
  destruct s as [fs0 w0 tr0 lg0 tl0 fp0 pp0]. cbn in *.
  eexists _, _. split; [reflexivity|]. cbn. fold lines.
  split; [done|]. split; [done|]. split; [apply suffix_drop|].
  split; [rewrite length_drop; lia|]. split; [|done].
  rewrite last_lookup, lookup_drop, length_drop.
  assert (length lines = S (length lg0)) as Hlen
    by (subst lines; rewrite length_app; cbn; lia).
  replace (length lines - 200 + pred (length lines - (length lines - 200)))%nat
    with (length lg0) by lia.
  subst lines. by rewrite lookup_app_r, Nat.sub_diag.
Qed.

(** X15. The duration prober, in full.  Without ffprobe it answers
    0.0 and does nothing.  With it, it spawns the one ffprobe command
    on the file and nothing else, shows and logs nothing, and answers
    the number that the standard output of the command, stripped,
    parses to when the command completes with return code 0, and 0.0
    in every other case. *)
Theorem get_duration_seconds_probe (file_path : path) (s : state X) :
  let spawn := subprocess_run X (ffprobe_cmd file_path) (fs s) (ext s) in
  ∃ d s',
    get_duration_seconds X cfg file_path s = (Ok d, s')
    ∧ log_text_lines s' = log_text_lines s
    ∧ if bin_ffprobe cfg then
        trace s' = trace s ++ [CallSubprocess (ffprobe_cmd file_path)]
        ∧ fs s' = spawn.1.2
        ∧ ext s' = spawn.2
        ∧ d = match spawn.1.1 with
              | Ok completed =>
                  if (returncode completed =? 0)%Z then
                    match float_of_str X (strip (opt_or (stdout completed) [])) with
                    | Ok seconds => seconds
                    | Raise _ => 0%float
                    end
                  else 0%float
              | Raise _ => 0%float
              end
      else s' = s ∧ d = 0%float.
Proof.
  intros spawn. unfold get_duration_seconds.
  destruct (bin_ffprobe cfg); cbn [negb]; [|by eexists _, _].
  unfold bind. rewrite run_cmd_capture_eq. subst spawn.
  destruct (subprocess_run X (ffprobe_cmd file_path) (fs s) (ext s))
    as [[[cp|e] fs1] w1]; cbn [fst snd].
  - destruct (returncode cp =? 0)%Z; [|by eexists _, _; destruct s].
    unfold try_except.
    destruct (float_of_str X (strip (opt_or (stdout cp) [])));
      by eexists _, _; destruct s.
  - cbn. by eexists _, _; destruct s.
Qed.

Lemma rfind_dot_wav (pre : pystr) :
  rfind_dot (pre ++ [46; 119; 97; 118]) = Some (length pre).
Proof. induction pre as [|c pre IH]; [done|]. cbn. by rewrite IH. Qed.

(** X16. The stem of a downloaded file.  For a file that the listing
    of "*.wav" returns, the stem from which the title is made is the
    name without its ".wav" ending; the one exception is the file
    called ".wav" itself, which has no suffix and is its own stem. *)
Theorem stem_of_wav (p : path) :
  endswith (name p) (py ".wav") = true →
  stem p = if bool_decide (name p = py ".wav") then py ".wav"
           else take (length (name p) - 4) (name p).
Proof.
  assert (py ".wav" = [46; 119; 97; 118]) as -> by reflexivity.
  unfold endswith, stem. intros Hend. apply bool_decide_eq_true in Hend.
  cbn [length] in Hend.
  pose proof (take_drop (length (name p) - 4) (name p)) as Hsplit.
  rewrite Hend in Hsplit. clear Hend.
  remember (name p) as n eqn:Hn. clear Hn.
  remember (take (length n - 4) n) as pre eqn:Hpre. clear Hpre. subst n.
  cbn zeta. rewrite rfind_dot_wav.
  destruct pre as [|c pre].
  - cbn [app length]. rewrite bool_decide_false by lia. by rewrite bool_decide_true.
  - rewrite bool_decide_true by (rewrite length_app; cbn; lia).
    rewrite take_app_length.
    rewrite bool_decide_false; [done|].
    intros Heq. apply (f_equal length) in Heq.
    rewrite length_app in Heq. cbn in Heq. lia.
Qed.

Lemma lstrip_blank (s : pystr) : Forall (λ c, is_space c = true) s → lstrip s = [].
Proof. induction 1 as [|c s Hc _ IH]; [done|]. cbn. by rewrite Hc. Qed.

(** X17. A URL made of white space only is refused like an empty one.
    The button passes [url.strip()] to the run; when nothing is left of
    it the run shows the message that no URL was given and does nothing
    else: the run itself logs nothing, spawns nothing and touches no
    file, whatever the other two fields hold. *)
Theorem blank_url_is_refused (url cookie_file prefix : pystr) (s : state X) :
  Forall (λ c, is_space c = true) url →
  process_url_to_text X cfg (strip url) cookie_file prefix s =
    (Ok tt, set_trace (trace s ++ [StError MsgNoUrl]) s).
Proof.
  intros Hblank. unfold strip, rstrip. rewrite (lstrip_blank url Hblank).
  reflexivity.
Qed.

End HelperFacts.

(** ** The progress reader *)

Section TimePatternFacts.

Variable uni_decimal : codepoint → bool.

Local Abbreviation digit := (is_digit uni_decimal).

Lemma py_time : py "time=" = [116; 105; 109; 101; 61].
Proof. reflexivity. Qed.

Lemma py_colon : py ":" = [58].
Proof. reflexivity. Qed.

Lemma py_dot : py "." = [46].
Proof. reflexivity. Qed.

Lemma colon_no_digit : digit 58 = false.
Proof. reflexivity. Qed.

Lemma dot_no_digit : digit 46 = false.
Proof. reflexivity. Qed.

Lemma span_digits_spec (s : pystr) :
  s = (span_digits uni_decimal s).1 ++ (span_digits uni_decimal s).2
  ∧ Forall (λ c, digit c = true) (span_digits uni_decimal s).1
  ∧ no_digit_first uni_decimal (span_digits uni_decimal s).2.
Proof.
  induction s as [|c s (IH1 & IH2 & IH3)]; [by repeat split|].
  cbn [span_digits]. destruct (digit c) eqn:Hc.
  - destruct (span_digits uni_decimal s) as [ds rest]. cbn in *.
    split; [by f_equal|]. split; [by constructor | done].
  - cbn. by repeat split.
Qed.

Lemma span_digits_app (ds rest : pystr) :
  Forall (λ c, digit c = true) ds →
  no_digit_first uni_decimal rest →
  span_digits uni_decimal (ds ++ rest) = (ds, rest).
Proof.
  intros Hds Hrest. induction Hds as [|c ds Hc _ IH]; cbn [app span_digits].
  - destruct rest as [|c rest]; [done|]. cbn in *. by rewrite Hrest.
  - by rewrite Hc, IH.
Qed.

Lemma digits1_spec (s ds rest : pystr) :
  digits1 uni_decimal s = Some (ds, rest) →
  s = ds ++ rest ∧ number uni_decimal ds ∧ no_digit_first uni_decimal rest.
Proof.
  unfold digits1. pose proof (span_digits_spec s) as (H1 & H2 & H3).
  destruct (span_digits uni_decimal s) as [[|c ds'] rest']; [done|].
  intros [= <- <-]. cbn in *. by repeat split.
Qed.

Lemma digits1_app (ds rest : pystr) :
  number uni_decimal ds →
  no_digit_first uni_decimal rest →
  digits1 uni_decimal (ds ++ rest) = Some (ds, rest).
Proof.
  intros [Hne Hds] Hrest. unfold digits1. rewrite span_digits_app by done.
  by destruct ds.
Qed.

Lemma literal_spec (lit s rest : pystr) :
  literal lit s = Some rest ↔ s = lit ++ rest.
Proof.
  revert s. induction lit as [|a lit IH]; intros s; cbn.
  - split; [by intros [= ->] | by intros ->].
  - destruct s as [|c s]; [done|].
    destruct (N.eqb_spec a c) as [->|Hac].
    + rewrite IH. split; [by intros -> | by intros [= ->]].
    + split; [done | by intros [= <- _]].
Qed.

(** What the pattern matches at the head of a string. *)
Lemma match_time_here_spec (s h mm ss : pystr) :
  match_time_here uni_decimal s = Some (h, mm, ss) →
  ∃ whole frac rest,
    s = time_stamp h mm ss ++ rest
    ∧ ss = whole ++ py "." ++ frac
    ∧ number uni_decimal h ∧ number uni_decimal mm
    ∧ number uni_decimal whole ∧ number uni_decimal frac
    ∧ no_digit_first uni_decimal rest.
Proof.
  unfold match_time_here, time_stamp.
  destruct (literal (py "time=") s) as [s0|] eqn:H0; [|done].
  destruct (digits1 uni_decimal s0) as [[h' s1]|] eqn:H1; [|done].
  destruct (literal (py ":") s1) as [s2|] eqn:H2; [|done].
  destruct (digits1 uni_decimal s2) as [[mm' s3]|] eqn:H3; [|done].
  destruct (literal (py ":") s3) as [s4|] eqn:H4; [|done].
  destruct (digits1 uni_decimal s4) as [[whole s5]|] eqn:H5; [|done].
  destruct (literal (py ".") s5) as [s6|] eqn:H6; [|done].
  destruct (digits1 uni_decimal s6) as [[frac rest]|] eqn:H7; [|done].
  intros [= <- <- <-].
  apply literal_spec in H0, H2, H4, H6.
  apply digits1_spec in H1 as (E1 & N1 & _), H3 as (E3 & N3 & _),
    H5 as (E5 & N5 & _), H7 as (E7 & N7 & R7).
  exists whole, frac, rest. subst. rewrite <- !app_assoc. by split_and!.
Qed.

(** A time stamp at the head of a string is matched, group by group. *)
Lemma match_time_here_stamp (h mm whole frac rest : pystr) :
  number uni_decimal h → number uni_decimal mm →
  number uni_decimal whole → number uni_decimal frac →
  no_digit_first uni_decimal rest →
  match_time_here uni_decimal (time_stamp h mm (whole ++ py "." ++ frac) ++ rest)
    = Some (h, mm, whole ++ py "." ++ frac).
Proof.
  intros Hh Hmm Hwhole Hfrac Hrest. unfold match_time_here, time_stamp.
  rewrite <- !app_assoc.
  rewrite (proj2 (literal_spec (py "time=") _ _) eq_refl).
  rewrite digits1_app by (done || (rewrite py_colon; apply colon_no_digit)).
  rewrite (proj2 (literal_spec (py ":") _ _) eq_refl).
  rewrite digits1_app by (done || (rewrite py_colon; apply colon_no_digit)).
  rewrite (proj2 (literal_spec (py ":") _ _) eq_refl).
  rewrite digits1_app by (done || (rewrite py_dot; apply dot_no_digit)).
  rewrite (proj2 (literal_spec (py ".") _ _) eq_refl).
  by rewrite digits1_app.
Qed.

(** No match starts at a character other than "t". *)
Lemma match_time_here_no_t (c : codepoint) (s : pystr) :
  c ≠ 116 → match_time_here uni_decimal (c :: s) = None.
Proof.
  intros Hc. unfold match_time_here. rewrite py_time. cbn [literal].
  destruct (N.eqb_spec 116 c) as [<-|_]; done.
Qed.

(** X18. What the search for the time stamp returns.  When it finds a
    match, the line holds "time=", the three groups and the two colons
    at the place of the match; the first two groups and the two sides
    of the dot in the third are non-empty strings of digits, taken as
    long as they can be; and no match starts further to the left. *)
Theorem search_time_sound (line : pystr) :
  match search_time uni_decimal line with
  | Some (h, mm, ss) =>
      ∃ pre whole frac rest,
        line = pre ++ time_stamp h mm ss ++ rest
        ∧ ss = whole ++ py "." ++ frac
        ∧ number uni_decimal h ∧ number uni_decimal mm
        ∧ number uni_decimal whole ∧ number uni_decimal frac
        ∧ no_digit_first uni_decimal rest
        ∧ ∀ i, (i < length pre)%nat → match_time_here uni_decimal (drop i line) = None
  | None => ∀ i, match_time_here uni_decimal (drop i line) = None
  end.
Proof.
  induction line as [|c line IH].
  - cbn. intros i. by rewrite drop_nil.
  - cbn [search_time].
    destruct (match_time_here uni_decimal (c :: line)) as [[[h mm] ss]|] eqn:Hhere.
    + destruct (match_time_here_spec _ _ _ _ Hhere)
        as (whole & frac & rest & Hs & Hss & Hh & Hmm & Hw & Hf & Hr).
      exists [], whole, frac, rest. cbn [app length].
      split_and!; try done. intros i Hi. lia.
    + destruct (search_time uni_decimal line) as [[[h mm] ss]|].
      * destruct IH as (pre & whole & frac & rest & Hs & Hss & Hh & Hmm & Hw & Hf & Hr & Hleft).
        exists (c :: pre), whole, frac, rest. cbn [app length].
        split_and!; try done; [by f_equal|].
        intros [|i] Hi; [done|]. cbn. apply Hleft. lia.
      * intros [|i]; [done|]. cbn. apply IH.
Qed.

(** X19. The search finds a time stamp.  In a line where no "t" comes
    before it, a stamp made of non-empty strings of digits and followed
    by something that is not a digit is found, and the groups are its
    hours, its minutes and its seconds with their fraction. *)
Theorem search_time_finds (pre h mm whole frac rest : pystr) :
  number uni_decimal h → number uni_decimal mm →
  number uni_decimal whole → number uni_decimal frac →
  no_digit_first uni_decimal rest →
  116 ∉ pre →
  search_time uni_decimal (pre ++ time_stamp h mm (whole ++ py "." ++ frac) ++ rest)
    = Some (h, mm, whole ++ py "." ++ frac).
Proof.
  intros Hh Hmm Hwhole Hfrac Hrest Hpre.
  induction pre as [|c pre IH].
  - cbn [app].
    pose proof (match_time_here_stamp h mm whole frac rest Hh Hmm Hwhole Hfrac Hrest)
      as Hhere.
    destruct (time_stamp h mm (whole ++ py "." ++ frac) ++ rest) as [|c line] eqn:Hline;
      cbn [search_time]; by rewrite Hhere.
  - cbn [app search_time]. rewrite match_time_here_no_t by set_solver.
    apply IH. set_solver.
Qed.

End TimePatternFacts.

Section ProgressReaderFacts.

Variable X : Externals.
Variable cfg : Settings.
Variable R : Streaming X.

#[local] Arguments strip : simpl never.
#[local] Arguments search_time : simpl never.
#[local] Arguments int_of_float : simpl never.

(** The percentage is computed on the side: the state stays as it is,
    and what comes out is at most 100. *)
Lemma elapsed_percent_spec (h mm ss : pystr) (total_seconds : float) (s : state X) :
  ∃ r, elapsed_percent X R h mm ss total_seconds s = (r, s)
       ∧ match r with Ok percent => (percent ≤ 100)%Z | Raise _ => True end.
Proof.
  unfold elapsed_percent, bind, lift, ret, raise.
  destruct (int_of_str R h) as [hours|e]; [|by eexists].
  destruct (int_of_str R mm) as [minutes|e]; [|by eexists].
  destruct (float_of_str X ss) as [seconds|e]; [|by eexists].
  destruct (float_of_int R (hours * 3600 + minutes * 60)) as [whole|e]; [|by eexists].
  destruct (PrimFloat.eqb total_seconds 0); [by eexists|].
  destruct (int_of_float _) as [truncated|e]; [|by eexists].
  eexists. split; [reflexivity|]. cbn. lia.
Qed.

Lemma call_popen_eq (cmd : list pystr) (s : state X) :
  call_popen X R cmd s =
    ((popen R cmd (fs s) (ext s)).1.1,
     set_ext (popen R cmd (fs s) (ext s)).2
       (set_fs (popen R cmd (fs s) (ext s)).1.2
          (set_trace (trace s ++ [CallSubprocess cmd]) s))).
Proof.
  unfold call_popen, bind, emit, modify. cbn.
  by destruct (popen R cmd (fs s) (ext s)) as [[r fs1] w1].
Qed.

Section Widgets.

Variable P : event → Prop.
Variable area_text : pystr → M X unit.
Variable bar_progress : Z → M X unit.

(** The log area may be given any text, the bar only a value that is
    at most 100. *)
Hypothesis HArea : ∀ text, emits_only P (area_text text).
Hypothesis HBar : ∀ percent, (percent ≤ 100)%Z → emits_only P (bar_progress percent).

Lemma emits_read_progress (total_seconds : float) (lines : list pystr) :
  emits_only P (read_progress X cfg R total_seconds area_text bar_progress lines).
Proof.
  induction lines as [|line rest IH]; cbn [read_progress]; [apply emits_ret|].
  apply emits_bind; [unfold when; destruct (show_detailed_logs cfg);
                     [apply HArea | apply emits_ret]|].
  intros _. apply emits_bind; [|intros _; exact IH].
  destruct (search_time (unicode_decimal R) line) as [[[h mm] ss]|]; [|apply emits_ret].
  destruct (float_truthy total_seconds); [|apply emits_ret].
  intros s. unfold bind.
  destruct (elapsed_percent_spec h mm ss total_seconds s) as (r & -> & Hr).
  destruct r as [percent|e]; [by apply HBar|].
  exists []. by rewrite app_nil_r.
Qed.

Lemma emits_stream_ffmpeg_progress (cmd : list pystr) (total_seconds : float) :
  P (CallSubprocess cmd) →
  emits_only P (stream_ffmpeg_progress X cfg R cmd total_seconds area_text bar_progress).
Proof.
  intros Hcmd. unfold stream_ffmpeg_progress.
  apply emits_bind.
  - unfold call_popen. apply emits_bind; [by apply emits_emit|]. intros _.
    apply emits_silent. intros s.
    by destruct (popen R cmd (fs s) (ext s)) as [[r fs1] w1].
  - intros [[lines|] rc]; [|apply emits_ret].
    apply emits_bind; [apply emits_read_progress | intros _; apply emits_ret].
Qed.

End Widgets.

(** X20. The progress reader never gives the bar more than 100.  If
    the spawn of the command is allowed, the log area allows every
    text and the bar allows every value up to 100, then everything the
    reader does is allowed, whatever the process prints, whatever the
    duration is and however the reading ends. *)
Theorem stream_ffmpeg_progress_at_most_100
    (P : event → Prop) (cmd : list pystr) (total_seconds : float)
    (area_text : pystr → M X unit) (bar_progress : Z → M X unit) (s : state X) :
  P (CallSubprocess cmd) →
  (∀ text, emits_only P (area_text text)) →
  (∀ percent, (percent ≤ 100)%Z → emits_only P (bar_progress percent)) →
  ∃ evs,
    trace (stream_ffmpeg_progress X cfg R cmd total_seconds area_text bar_progress s).2
      = trace s ++ evs
    ∧ Forall P evs.
Proof.
  intros Hcmd Harea Hbar. by apply emits_stream_ffmpeg_progress.
Qed.

(** The reading of the lines when the bar is never reached. *)
Lemma read_progress_bar (total_seconds : float)
    (area_text : pystr → M X unit) (bar bar' : Z → M X unit) (lines : list pystr) :
  float_truthy total_seconds = false →
  read_progress X cfg R total_seconds area_text bar lines
  = read_progress X cfg R total_seconds area_text bar' lines.
Proof.
  intros Htotal. induction lines as [|line rest IH]; [done|].
  cbn [read_progress]. rewrite Htotal, IH. done.
Qed.

Lemma read_progress_area (total_seconds : float)
    (area area' : pystr → M X unit) (bar : Z → M X unit) (lines : list pystr) :
  show_detailed_logs cfg = false →
  read_progress X cfg R total_seconds area bar lines
  = read_progress X cfg R total_seconds area' bar lines.
Proof.
  intros Hlogs. induction lines as [|line rest IH]; [done|].
  cbn [read_progress]. rewrite Hlogs, IH. done.
Qed.

Lemma read_progress_idle (total_seconds : float)
    (area : pystr → M X unit) (bar : Z → M X unit) (lines : list pystr) (s : state X) :
  float_truthy total_seconds = false →
  show_detailed_logs cfg = false →
  read_progress X cfg R total_seconds area bar lines s = (Ok tt, s).
Proof.
  intros Htotal Hlogs. induction lines as [|line rest IH]; [done|].
  cbn [read_progress]. rewrite Htotal, Hlogs. unfold bind, when, ret. cbn.
  by destruct (search_time (unicode_decimal R) line) as [[[h mm] ss]|].
Qed.

(** X21. The widgets the reader leaves alone.  With a duration of
    zero (the unknown duration of the documentation, of either sign)
    the bar is never used: the reader does the same with any other
    bar.  Without the detailed logs the log area is never used.  With
    both, all that the reader does is to spawn the command and to hand
    its return code back. *)
Theorem stream_ffmpeg_progress_idle_widgets
    (cmd : list pystr) (total_seconds : float)
    (area area' : pystr → M X unit) (bar bar' : Z → M X unit) (s : state X) :
  (float_truthy total_seconds = false →
   stream_ffmpeg_progress X cfg R cmd total_seconds area bar s
   = stream_ffmpeg_progress X cfg R cmd total_seconds area bar' s)
  ∧ (show_detailed_logs cfg = false →
     stream_ffmpeg_progress X cfg R cmd total_seconds area bar s
     = stream_ffmpeg_progress X cfg R cmd total_seconds area' bar s)
  ∧ (float_truthy total_seconds = false → show_detailed_logs cfg = false →
     stream_ffmpeg_progress X cfg R cmd total_seconds area bar s
     = (proc <- call_popen X R cmd ;; ret proc.2)%script s).
Proof.
  unfold stream_ffmpeg_progress. split; [|split].
  - intros Htotal. unfold bind at 1 3.
    destruct (call_popen X R cmd s) as [[[[lines|] rc]|e] s1]; [|done|done].
    by rewrite (read_progress_bar _ _ bar bar').
  - intros Hlogs. unfold bind at 1 3.
    destruct (call_popen X R cmd s) as [[[[lines|] rc]|e] s1]; [|done|done].
    by rewrite (read_progress_area _ area area').
  - intros Htotal Hlogs. unfold bind at 1 3.
    destruct (call_popen X R cmd s) as [[[[lines|] rc]|e] s1]; [|done|done].
    unfold bind. by rewrite read_progress_idle.
Qed.

(** X22. What the reader returns.  A value it returns is the return
    code of the process it spawned, whether the process has an error
    stream or not; when the spawn raises, the reader raises the same
    exception having called no widget; and a process without an error
    stream is only waited for. *)
Theorem stream_ffmpeg_progress_returns
    (cmd : list pystr) (total_seconds : float)
    (area : pystr → M X unit) (bar : Z → M X unit) (s : state X) :
  let s1 := set_ext (popen R cmd (fs s) (ext s)).2
              (set_fs (popen R cmd (fs s) (ext s)).1.2
                 (set_trace (trace s ++ [CallSubprocess cmd]) s)) in
  match (popen R cmd (fs s) (ext s)).1.1 with
  | Ok (Some lines, rc) =>
      match stream_ffmpeg_progress X cfg R cmd total_seconds area bar s with
      | (Ok v, _) => v = rc
      | (Raise e, s') =>
          (read_progress X cfg R total_seconds area bar lines s1) = (Raise e, s')
      end
  | Ok (None, rc) =>
      stream_ffmpeg_progress X cfg R cmd total_seconds area bar s = (Ok rc, s1)
  | Raise e =>
      stream_ffmpeg_progress X cfg R cmd total_seconds area bar s = (Raise e, s1)
  end.
Proof.
  intros s1.
  destruct (popen R cmd (fs s) (ext s)).1.1 as [[[lines|] rc]|e] eqn:Hproc;
    unfold stream_ffmpeg_progress; unfold bind at 1;
    rewrite call_popen_eq, Hproc; fold s1; [|done|done].
  unfold bind.
  by destruct (read_progress X cfg R total_seconds area bar lines s1) as [[[]|e] s'].
Qed.

End ProgressReaderFacts.

(** ** Concrete readings and runs *)

Section MoreRuns.

Import Demo Booth.

(** The reading of the lines of a cut of two minutes: the bar gets 25,
    50 and, for the stamp that lies beyond the duration, 100. *)
Example reading_of_a_cut :
  let '(r, s) := stream_ffmpeg_progress booth settings reader cut_cmd 120%float area bar
                   (start booth 0%nat ∅) in
  r = Ok 0%Z
  ∧ trace s = [CallSubprocess cut_cmd; ProgressBar 25; ProgressBar 50; ProgressBar 100].
Proof. vm_compute. by split. Qed.

(** With an unknown duration nothing is shown. *)
Example reading_without_duration :
  let '(r, s) := stream_ffmpeg_progress booth settings reader cut_cmd 0%float area bar
                   (start booth 0%nat ∅) in
  r = Ok 0%Z ∧ trace s = [CallSubprocess cut_cmd].
Proof. vm_compute. by split. Qed.

(** A process without an error stream is waited for. *)
Example reading_of_a_deaf_process :
  (stream_ffmpeg_progress booth settings deaf_reader cut_cmd 120%float area bar
     (start booth 0%nat ∅)).1 = Ok 3%Z.
Proof. vm_compute. reflexivity. Qed.

Example search_time_samples :
  search_time (λ _, false) (py "size= 1kB time=00:01:02.50 bitrate=1") =
    Some (py "00", py "01", py "02.50")
  ∧ search_time (λ _, false) (py "time=1:2:3 time=10:20:30.4x") =
      Some (py "10", py "20", py "30.4")
  ∧ search_time (λ _, false) (py "time=00:01:02") = None.
Proof. vm_compute. by repeat split. Qed.

(** After the run of the talk in the studio no part is left in the
    scratch directory. *)
Lemma temporary_directory_removed_witness :
  fs (process_url_to_text studio settings talk_url [] [] (start studio 0%nat ∅)).2
    !! part (py "part_000.wav") = None.
Proof.
  apply (temporary_directory_removed studio settings talk_url [] []
           (start studio 0%nat ∅) (part (py "part_000.wav"))
           eq_refl eq_refl eq_refl eq_refl).
  exists [py "split"; py "part_000.wav"]. reflexivity.
Defined.

(** The stem of the first part. *)
Lemma stem_of_wav_witness :
  stem (part (py "part_000.wav")) = py "part_000".
Proof.
  rewrite (stem_of_wav (part (py "part_000.wav")) eq_refl). reflexivity.
Defined.

(** A URL of two spaces and a tab. *)
Lemma blank_url_is_refused_witness :
  process_url_to_text studio settings (strip [32; 32; 9]) [] [] (start studio 0%nat ∅) =
    (Ok tt, set_trace [StError MsgNoUrl] (start studio 0%nat ∅)).
Proof.
  apply (blank_url_is_refused studio settings [32; 32; 9] [] [] (start studio 0%nat ∅)).
  by repeat constructor.
Defined.

(** A line of ffmpeg. *)
Lemma search_time_finds_witness :
  search_time (λ _, false)
    (py "size= 1kB " ++ time_stamp (py "00") (py "01") (py "02" ++ py "." ++ py "50")
       ++ py " bitrate=1") =
    Some (py "00", py "01", py "02" ++ py "." ++ py "50").
Proof.
  apply (search_time_finds (λ _, false) (py "size= 1kB ") (py "00") (py "01")
           (py "02") (py "50") (py " bitrate=1")).
  - split; [discriminate | by repeat constructor].
  - split; [discriminate | by repeat constructor].
  - split; [discriminate | by repeat constructor].
  - split; [discriminate | by repeat constructor].
  - reflexivity.
  - apply (bool_decide_unpack (116 ∉ py "size= 1kB ")). vm_compute. exact I.
Defined.

(** The reading of the cut never gives the bar more than 100. *)
Lemma stream_ffmpeg_progress_at_most_100_witness :
  ∃ evs,
    trace (stream_ffmpeg_progress booth settings reader cut_cmd 120%float area bar
             (start booth 0%nat ∅)).2 = [] ++ evs
    ∧ Forall bar_in_range evs.
Proof.
  apply (stream_ffmpeg_progress_at_most_100 booth settings reader bar_in_range
           cut_cmd 120%float area bar (start booth 0%nat ∅)).
  - exact I.
  - intros text. apply emits_emit. exact I.
  - intros percent Hpercent. apply emits_emit. exact Hpercent.
Defined.

End MoreRuns.
